(** * YouTube channel dashboard: the data-retrieval pipeline of [app.py]

    The three retrieval functions of [app.py] ([get_uploads_playlist_id],
    [get_recent_video_ids], [get_video_stats]) and the fetch sequence run by
    the "analyze" button, embedded as functions of an explicit world: the
    state of the remote platform plus the log of the remote calls issued so
    far.

    Conventions of the embedding:
    - an instant is a [Z], microseconds since the Unix epoch (the resolution
      of Python's [datetime]); the string-to-instant conversion done with
      [datetime.fromisoformat] and the [int(...)] conversion of the
      statistics are taken as already performed on the response;
    - a response is a record; the top-level key ["items"] is optional in
      every response, since the three functions treat its absence
      differently;
    - [.execute()] either returns a response or raises;
    - the [while True] loop takes fuel, and [None] stands for a run that has
      not finished within the fuel;
    - the definitions are the bodies of the functions, that is, what runs
      when the [st.cache_data] memoization has no entry for the call. *)

From Stdlib Require Import List ZArith String Bool Arith Lia.
From Stdlib Require Import Permutation Sorted Ascii.
Import ListNotations.

Local Open Scope string_scope.
Local Open Scope list_scope.

(** ** Exceptions and outcomes *)

Inductive Exception : Type :=
| ValueError (msg : string)
| KeyError (key : string)
| OverflowError
| HttpError (reason : string).

Inductive Outcome (A : Type) : Type :=
| Returned (a : A)
| Raised (e : Exception).

Arguments Returned {A} a.
Arguments Raised {A} e.

(** ** Responses of the platform *)

(** [res["items"][0]["contentDetails"]["relatedPlaylists"]["uploads"]] *)
Record ChannelItem : Type := {
  uploads : string
}.

Record ChannelListResponse : Type := {
  ch_items : option (list ChannelItem)
}.

(** [item["snippet"]["publishedAt"]] (as an instant) and
    [item["snippet"]["resourceId"]["videoId"]] *)
Record PlaylistItem : Type := {
  publishedAt : Z;
  videoId : string
}.

Record PlaylistItemListResponse : Type := {
  pl_items : option (list PlaylistItem);
  nextPageToken : option string
}.

(** [item["id"]], [item["snippet"]["title"]], [item["snippet"]["publishedAt"]]
    and the optional [viewCount] and [likeCount] of [item["statistics"]] *)
Record VideoItem : Type := {
  v_id : string;
  v_title : string;
  v_publishedAt : string;
  viewCount : option Z;
  likeCount : option Z
}.

Record VideoListResponse : Type := {
  v_items : option (list VideoItem)
}.

(** ** The remote platform and the world *)

Inductive Call : Type :=
| ChannelsList (id : string)
| PlaylistItemsList (playlistId : string) (pageToken : option string)
| VideosList (id : string).

(** The [youtube] client object: each [.list(...).execute()] takes the state
    of the platform to an outcome and a new state. *)
Class Youtube (St : Type) : Type := {
  channels_list : string -> St -> Outcome ChannelListResponse * St;
  playlistItems_list :
    string -> option string -> St -> Outcome PlaylistItemListResponse * St;
  videos_list : string -> St -> Outcome VideoListResponse * St
}.

Record World (St : Type) : Type := mkWorld {
  platform : St;
  calls : list Call
}.

Arguments mkWorld {St} platform calls.
Arguments platform {St} w.
Arguments calls {St} w.

(** ** A state, exception and divergence monad *)

Definition Run (St A : Type) : Type :=
  World St -> option (Outcome A * World St).

Definition ret {St A : Type} (a : A) : Run St A :=
  fun w => Some (Returned a, w).

Definition raise {St A : Type} (e : Exception) : Run St A :=
  fun w => Some (Raised e, w).

Definition bind {St A B : Type} (m : Run St A) (k : A -> Run St B) : Run St B :=
  fun w =>
    match m w with
    | None => None
    | Some (Raised e, w1) => Some (Raised e, w1)
    | Some (Returned a, w1) => k a w1
    end.

Notation "x <- m ;; k" := (bind m (fun x => k))
  (at level 61, m at next level, right associativity).

(** One remote call: the platform answers, and the call is logged. *)
Definition execute {St A : Type} (c : Call) (f : St -> Outcome A * St) : Run St A :=
  fun w =>
    let (r, s1) := f (platform w) in
    Some (r, mkWorld s1 (calls w ++ [c])).

(** ** Clock arithmetic of line 50 *)

Definition us_per_day : Z := 86400000000.

(** 0001-01-01T00:00:00 and 9999-12-31T23:59:59.999999, the range of
    [datetime]. *)
Definition datetime_min : Z := -62135596800000000.
Definition datetime_max : Z := 253402300799999999.

(** [timedelta(days=days)] *)
Definition timedelta (days : Z) : Outcome Z :=
  if (Z.abs days >? 999999999)%Z then Raised OverflowError
  else Returned (days * us_per_day)%Z.

(** [t - delta] on [datetime] *)
Definition datetime_sub (t delta : Z) : Outcome Z :=
  let r := (t - delta)%Z in
  if ((datetime_min <=? r) && (r <=? datetime_max))%Z then Returned r
  else Raised OverflowError.

(** [datetime.now(timezone.utc) - timedelta(days=days)], with [now] the
    reading of the clock. *)
Definition published_after_of (now days : Z) : Outcome Z :=
  match timedelta days with
  | Raised e => Raised e
  | Returned delta => datetime_sub now delta
  end.

(** Python's truth value of [res.get("nextPageToken")]: [None] and the empty
    string are false. *)
Definition truthy (tok : option string) : bool :=
  match tok with
  | None => false
  | Some s => negb (s =? "")
  end.

Section Client.

Context {St : Type} {youtube : Youtube St}.

(** ** 1. [get_uploads_playlist_id] *)

Definition invalid_channel : Exception :=
  ValueError "チャンネルIDが不正です".

Definition get_uploads_playlist_id (channel_id : string) : Run St string :=
  res <- execute (ChannelsList channel_id) (channels_list channel_id) ;;
  match ch_items res with
  | None => raise invalid_channel
  | Some [] => raise invalid_channel
  | Some (item :: _) => ret (uploads item)
  end.

(** ** 2. [get_recent_video_ids] *)

(** How the [for item in res["items"]] loop is left: by the [return] inside
    it, or by running off the end of the page. *)
Inductive ForExit : Type :=
| EarlyReturn (video_ids : list string)
| Completed (video_ids : list string).

Fixpoint for_items (published_after : Z) (items : list PlaylistItem)
    (video_ids : list string) : ForExit :=
  match items with
  | [] => Completed video_ids
  | item :: rest =>
      if (publishedAt item <? published_after)%Z then EarlyReturn video_ids
      else for_items published_after rest (video_ids ++ [videoId item])
  end.

Fixpoint while_true (fuel : nat) (uploads_playlist_id : string)
    (published_after : Z) (video_ids : list string)
    (next_page_token : option string) : Run St (list string) :=
  match fuel with
  | O => fun _ => None
  | S fuel' =>
      res <- execute (PlaylistItemsList uploads_playlist_id next_page_token)
               (playlistItems_list uploads_playlist_id next_page_token) ;;
      match pl_items res with
      | None => raise (KeyError "items")
      | Some items =>
          match for_items published_after items video_ids with
          | EarlyReturn ids => ret ids
          | Completed ids =>
              if truthy (nextPageToken res)
              then while_true fuel' uploads_playlist_id published_after ids
                     (nextPageToken res)
              else ret ids
          end
      end
  end.

Definition get_recent_video_ids (fuel : nat) (uploads_playlist_id : string)
    (days now : Z) : Run St (list string) :=
  match published_after_of now days with
  | Raised e => raise e
  | Returned published_after =>
      while_true fuel uploads_playlist_id published_after [] None
  end.

(** ** 3. [get_video_stats] *)

(** One row of the [DataFrame]: the dict appended to [rows]. *)
Record Row : Type := {
  video_id : string;
  title : string;
  view_count : Z;
  like_count : Z;
  published_at : string
}.

Definition DataFrame : Type := list Row.

(** [d.get(key, 0)] on an optional statistic *)
Definition get_or_zero (v : option Z) : Z :=
  match v with
  | Some n => n
  | None => 0%Z
  end.

Definition row_of (item : VideoItem) : Row :=
  {| video_id := v_id item;
     title := v_title item;
     view_count := get_or_zero (viewCount item);
     like_count := get_or_zero (likeCount item);
     published_at := v_publishedAt item |}.

(** [res.get("items", [])] *)
Definition items_or_empty (res : VideoListResponse) : list VideoItem :=
  match v_items res with
  | Some items => items
  | None => []
  end.

(** [range(start, stop, step)] for a positive step *)
Definition range (start stop step : nat) : list nat :=
  map (fun k => start + k * step)
      (seq 0 ((stop - start + step - 1) / step)).

(** [l[i:j]] for indices within [0, ...) *)
Definition slice {A : Type} (l : list A) (i j : nat) : list A :=
  firstn (j - i) (skipn i l).

(** [",".join(chunk)] *)
Definition join_ids (chunk : list string) : string :=
  String.concat "," chunk.

(** The body of [for i in range(0, len(video_ids), 50)], over the remaining
    values of [i]. *)
Fixpoint for_chunks (video_ids : list string) (starts : list nat)
    (rows : list Row) : Run St (list Row) :=
  match starts with
  | [] => ret rows
  | i :: rest =>
      let chunk := slice video_ids i (i + 50) in
      res <- execute (VideosList (join_ids chunk))
               (videos_list (join_ids chunk)) ;;
      for_chunks video_ids rest (rows ++ map row_of (items_or_empty res))
  end.

Definition get_video_stats (video_ids : list string) : Run St DataFrame :=
  match video_ids with
  | [] => ret []
  | _ :: _ =>
      for_chunks video_ids (range 0 (List.length video_ids) 50) []
  end.

(** ** The fetch sequence of the "analyze" button (lines 126-134, 239-240) *)

(** What the user is shown once the [try] block has been left or has
    reached the presentation code: the message of a caught exception, the
    "no videos" warning followed by [st.stop()], or the dashboard drawn
    from a non-empty table. *)
Inductive Screen : Type :=
| ErrorMessage (e : Exception)
| NoVideosWarning
| Dashboard (df : DataFrame).

Definition fetch (fuel : nat) (channel_id : string) (days now : Z)
    : Run St DataFrame :=
  uploads_id <- get_uploads_playlist_id channel_id ;;
  video_ids <- get_recent_video_ids fuel uploads_id days now ;;
  get_video_stats video_ids.

(** [df.empty] *)
Definition empty (df : DataFrame) : bool :=
  match df with
  | [] => true
  | _ :: _ => false
  end.

Definition analyze (fuel : nat) (channel_id : string) (days now : Z)
    (w : World St) : option (Screen * World St) :=
  match fetch fuel channel_id days now w with
  | None => None
  | Some (Raised e, w1) => Some (ErrorMessage e, w1)
  | Some (Returned df, w1) =>
      if empty df then Some (NoVideosWarning, w1)
      else Some (Dashboard df, w1)
  end.

End Client.

(** ** A scripted platform

    A test double of the platform: every endpoint answers with the next
    entry of its script, and raises once its script is used up. *)

Record Script : Type := mkScript {
  ch_script : list (Outcome ChannelListResponse);
  pl_script : list (Outcome PlaylistItemListResponse);
  vd_script : list (Outcome VideoListResponse)
}.

Definition used_up {A : Type} : Outcome A := Raised (HttpError "no response").

#[global] Instance scripted : Youtube Script := {
  channels_list _ s :=
    match ch_script s with
    | [] => (used_up, s)
    | r :: rest => (r, mkScript rest (pl_script s) (vd_script s))
    end;
  playlistItems_list _ _ s :=
    match pl_script s with
    | [] => (used_up, s)
    | r :: rest => (r, mkScript (ch_script s) rest (vd_script s))
    end;
  videos_list _ s :=
    match vd_script s with
    | [] => (used_up, s)
    | r :: rest => (r, mkScript (ch_script s) (pl_script s) rest)
    end
}.

(** A platform whose uploads playlist never ends: every page holds one item
    published at instant [t] and carries a continuation token. *)
#[global] Instance endless (t : Z) : Youtube unit := {
  channels_list _ s := (Returned {| ch_items := None |}, s);
  playlistItems_list _ _ s :=
    (Returned {| pl_items := Some [ {| publishedAt := t; videoId := "v" |} ];
                 nextPageToken := Some "more" |}, s);
  videos_list _ s := (Returned {| v_items := None |}, s)
}.

(** A channel whose videos have all been removed since they were listed: the
    channel lookup finds the uploads playlist ["UU"], the playlist pages come
    from a script, and every statistics request is answered with an empty
    list of items. *)
#[global] Instance all_removed
    : Youtube (list (Outcome PlaylistItemListResponse)) := {
  channels_list _ s :=
    (Returned {| ch_items := Some [ {| uploads := "UU" |} ] |}, s);
  playlistItems_list _ _ s :=
    match s with
    | [] => (used_up, s)
    | r :: rest => (r, rest)
    end;
  videos_list _ s := (Returned {| v_items := Some [] |}, s)
}.

(** ** Playlist pages

    A page of the uploads playlist as [get_recent_video_ids] reads it: the
    items under ["items"] and the optional ["nextPageToken"]. *)

Record Page : Type := {
  pg_items : list PlaylistItem;
  pg_token : option string
}.

Definition page_response (p : Page) : PlaylistItemListResponse :=
  {| pl_items := Some (pg_items p); nextPageToken := pg_token p |}.

(** The items of a sequence of pages, counted across the pages. *)
Definition all_items (pages : list Page) : list PlaylistItem :=
  flat_map pg_items pages.

(** Index of the page that holds the item of index [n] of [all_items]. *)
Fixpoint page_index (pages : list Page) (n : nat) : nat :=
  match pages with
  | [] => 0
  | p :: rest =>
      if (n <? List.length (pg_items p))%nat then 0
      else S (page_index rest (n - List.length (pg_items p)))
  end.

(** Every page but the last carries a continuation token. *)
Fixpoint linked (pages : list Page) : bool :=
  match pages with
  | [] => true
  | p :: rest =>
      match rest with
      | [] => true
      | _ :: _ => truthy (pg_token p) && linked rest
      end
  end.

(** Newest first; equal instants are allowed. *)
Fixpoint reverse_chronological (items : list PlaylistItem) : bool :=
  match items with
  | [] => true
  | a :: rest =>
      match rest with
      | [] => true
      | b :: _ =>
          (publishedAt b <=? publishedAt a)%Z && reverse_chronological rest
      end
  end.

(** The two ways out of the [while True] loop, as a test on a page: one of
    its items is older than the cutoff, or it has no continuation token. *)
Definition has_older (published_after : Z) (p : Page) : bool :=
  existsb (fun item => (publishedAt item <? published_after)%Z) (pg_items p).

Definition stops (published_after : Z) (p : Page) : bool :=
  has_older published_after p || negb (truthy (pg_token p)).

Fixpoint first_stop (published_after : Z) (pages : list Page) : nat :=
  match pages with
  | [] => 0
  | p :: rest =>
      if stops published_after p then 0
      else S (first_stop published_after rest)
  end.

(** The batches of [get_video_stats]: the slices [video_ids[i:i+50]]. *)
Definition chunks (video_ids : list string) : list (list string) :=
  map (fun i => slice video_ids i (i + 50))
      (range 0 (List.length video_ids) 50).

Section Conversation.

Context {St : Type} {youtube : Youtube St}.

(** [serves pid s tok pages s']: from state [s], a client that asks for
    the pages of playlist [pid] starting with token [tok], and then sends
    back the token of each page it receives, is answered with [pages], one
    after the other, and leaves the platform in state [s']. *)
Inductive serves (pid : string)
    : St -> option string -> list Page -> St -> Prop :=
| serves_nil s tok : serves pid s tok [] s
| serves_cons s tok p s1 rest s2 :
    playlistItems_list pid tok s = (Returned (page_response p), s1) ->
    serves pid s1 (pg_token p) rest s2 ->
    serves pid s tok (p :: rest) s2.

(** The calls of that conversation. *)
Fixpoint page_calls (pid : string) (tok : option string)
    (pages : list Page) : list Call :=
  match pages with
  | [] => []
  | p :: rest => PlaylistItemsList pid tok :: page_calls pid (pg_token p) rest
  end.

(** [answers s reqs rs s']: from state [s], the statistics requests [reqs],
    issued in this order, are answered with the responses [rs]. *)
Inductive answers
    : St -> list string -> list VideoListResponse -> St -> Prop :=
| answers_nil s : answers s [] [] s
| answers_cons s req res s1 reqs rs s2 :
    videos_list req s = (Returned res, s1) ->
    answers s1 reqs rs s2 ->
    answers s (req :: reqs) (res :: rs) s2.

End Conversation.

(** ** Vocabulary of the properties *)

(** Published at or after the cutoff. *)
Definition not_older (published_after : Z) (item : PlaylistItem) : Prop :=
  (published_after <= publishedAt item)%Z.

(** The identifiers of the items of a response, and of a sequence of
    responses, in order. *)
Definition returned_ids (rs : list VideoListResponse) : list string :=
  flat_map (fun res => map v_id (items_or_empty res)) rs.

Definition returned_rows (rs : list VideoListResponse) : list Row :=
  flat_map (fun res => map row_of (items_or_empty res)) rs.

(** ** Concrete data *)

(** A clock reading (2023-11-14T22:13:20Z) and the cutoff of a 7-day
    window. *)
Definition now0 : Z := 1700000000000000.
Definition cutoff0 : Z := 1699395200000000.

(** An item published [d] days before [now0]. *)
Definition item_at (d : Z) (v : string) : PlaylistItem :=
  {| publishedAt := now0 - d * us_per_day; videoId := v |}.

Definition page1 : Page :=
  {| pg_items := [item_at 1 "v1"; item_at 3 "v2"];
     pg_token := Some "CAIQAA" |}.

Definition page2 : Page :=
  {| pg_items := [item_at 6 "v3"; item_at 9 "v4"; item_at 12 "v5"];
     pg_token := Some "CAUQAA" |}.

Definition page3 : Page :=
  {| pg_items := [item_at 20 "v6"]; pg_token := None |}.

(** A platform that serves these three pages. *)
Definition three_pages : Script :=
  mkScript [] (map (fun p => Returned (page_response p)) [page1; page2; page3])
           [].

(** The same pages as the script of [all_removed]. *)
Definition three_responses : list (Outcome PlaylistItemListResponse) :=
  map (fun p => Returned (page_response p)) [page1; page2; page3].

(** The calls of a query on these pages up to the end of the discovery. *)
Definition discovery_calls : list Call :=
  [ChannelsList "UC"; PlaylistItemsList "UU" None;
   PlaylistItemsList "UU" (Some "CAIQAA")].

(** A page whose single item is stamped one microsecond after the clock
    reading [now0]. *)
Definition premiere_page : Page :=
  {| pg_items := [ {| publishedAt := now0 + 1; videoId := "premiere" |} ];
     pg_token := None |}.

(** A video with both statistics present. *)
Definition video (id : string) (views likes : Z) : VideoItem :=
  {| v_id := id; v_title := id; v_publishedAt := "2023-11-14T00:00:00Z";
     viewCount := Some views; likeCount := Some likes |}.

(** ** Presentation code (lines 143-151)

    The two derived columns that are functions of the identifier, and the
    selection of the three most viewed rows. [sort_values] is the library
    call [df.sort_values("view_count", ascending=False)]; it is a parameter,
    described by [sorts_by_views], since the order it gives to rows with
    equal view counts is not fixed by the source. *)

(** [f"https://img.youtube.com/vi/{x}/hqdefault.jpg"] *)
Definition thumbnail (x : string) : string :=
  ("https://img.youtube.com/vi/" ++ x ++ "/hqdefault.jpg")%string.

(** ["https://www.youtube.com/watch?v=" + df["video_id"]] *)
Definition video_url (video_id : string) : string :=
  ("https://www.youtube.com/watch?v=" ++ video_id)%string.

(** [df.head(n)] *)
Definition head (n : nat) (df : DataFrame) : DataFrame := firstn n df.

(** [df.sort_values("view_count", ascending=False).head(3)] *)
Definition top3_df (sort_values : DataFrame -> DataFrame) (df : DataFrame)
    : DataFrame :=
  head 3 (sort_values df).

(** More views first. *)
Definition more_views_first (a b : Row) : Prop :=
  (view_count b <= view_count a)%Z.

(** What the sort is relied on for: the same rows, most viewed first. *)
Definition sorts_by_views (sort_values : DataFrame -> DataFrame) : Prop :=
  forall df : DataFrame,
    Permutation (sort_values df) df /\
    StronglySorted more_views_first (sort_values df).

(** One such sort, by insertion. *)
Fixpoint insert_by_views (r : Row) (df : DataFrame) : DataFrame :=
  match df with
  | [] => [r]
  | x :: rest =>
      if (view_count x <? view_count r)%Z then r :: df
      else x :: insert_by_views r rest
  end.

Fixpoint insertion_sort_by_views (df : DataFrame) : DataFrame :=
  match df with
  | [] => []
  | r :: rest => insert_by_views r (insertion_sort_by_views rest)
  end.

(** ** More vocabulary *)

(** The token that a client which has read [pages], starting with [tok],
    sends next. *)
Fixpoint next_token (tok : option string) (pages : list Page)
    : option string :=
  match pages with
  | [] => tok
  | p :: rest => next_token (pg_token p) rest
  end.

(** What a scan of all the items followed by a filter on the cutoff would
    keep. *)
Definition within_window (published_after : Z) (items : list PlaylistItem)
    : list PlaylistItem :=
  filter (fun item => negb (publishedAt item <? published_after)%Z) items.

(** The statistics of an item, where present, are not negative. *)
Definition counts_not_negative (item : VideoItem) : Prop :=
  (forall n, viewCount item = Some n -> (0 <= n)%Z) /\
  (forall n, likeCount item = Some n -> (0 <= n)%Z).

(** A response that lists the videos of its batch, all of them and in the
    order of the request. *)
Definition lists_batch (chunk : list string) (res : VideoListResponse)
    : Prop :=
  map v_id (items_or_empty res) = chunk.

(** A page request that does not give a page: the platform raised, or the
    response has no ["items"] key. [e] is what the client then raises. *)
Definition gives_no_page (r : Outcome PlaylistItemListResponse)
    (e : Exception) : Prop :=
  r = Raised e \/
  exists res, r = Returned res /\ pl_items res = None /\ e = KeyError "items".

(** ** More concrete data *)

(** The channel lookup of a channel whose uploads playlist is ["UU"]. *)
Definition channel_found : Outcome ChannelListResponse :=
  Returned {| ch_items := Some [ {| uploads := "UU" |} ] |}.

(** A platform that serves the first page and then refuses the second
    request. *)
Definition quota_exceeded : Exception := HttpError "quotaExceeded".

Definition second_page_refused : Script :=
  mkScript [channel_found]
           [Returned (page_response page1); Raised quota_exceeded] [].

(** Statistics for the three recent videos of [three_pages]. *)
Definition three_videos : VideoListResponse :=
  {| v_items := Some [video "v1" 1000 50; video "v2" 500 20;
                      video "v3" 10000 5] |}.

Definition three_rows : DataFrame :=
  [row_of (video "v1" 1000 50); row_of (video "v2" 500 20);
   row_of (video "v3" 10000 5)].

(** A platform on which the whole query succeeds. *)
Definition all_answered : Script :=
  mkScript [channel_found]
           (map (fun p => Returned (page_response p)) [page1; page2; page3])
           [Returned three_videos].

(** A platform whose newest upload is 20 days old. *)
Definition nothing_recent : Script :=
  mkScript [channel_found] [Returned (page_response page3)] [].

(** A platform that answers the first statistics batch with the video ["a"]
    and fails on the second. *)
Definition second_batch_fails : Script :=
  mkScript [] []
           [Returned {| v_items := Some [video "a" 1000 50] |};
            Raised (HttpError "backendError")].

(** A platform that has lost the video ["b"]. *)
Definition b_removed : Script :=
  mkScript [] []
           [Returned {| v_items := Some [video "a" 1000 50;
                                         video "c" 10 0] |}].

(** A scripted platform whose three recent videos have been removed: the
    one statistics response has no item. *)
Definition all_gone : Script :=
  mkScript [Returned {| ch_items := Some [ {| uploads := "UU" |} ] |}]
           (map (fun p => Returned (page_response p)) [page1; page2; page3])
           [Returned {| v_items := Some [] |}].

(** 120 distinct identifiers, ["A0"] to ["L9"]. *)
Definition numbered (n : nat) : string :=
  String (ascii_of_nat (65 + n / 10))
         (String (ascii_of_nat (48 + n mod 10)) EmptyString).

Definition ids120 : list string := map numbered (seq 0 120).

(** What the platform finds for each of the three batches of [ids120]. *)
Definition batch1_found : VideoListResponse :=
  {| v_items := Some [video "A0" 1000 50; video "A1" 7 0] |}.

Definition batch2_found : VideoListResponse :=
  {| v_items := Some [video "F0" 500 20] |}.

Definition batch3_found : VideoListResponse :=
  {| v_items := Some [video "L9" 10000 5] |}.

Definition three_batches_answered : Script :=
  mkScript [] []
           [Returned batch1_found; Returned batch2_found;
            Returned batch3_found].

(** A platform that answers two batches, with the video ["a"] and with the
    video ["b"]. *)
Definition two_batches : Script :=
  mkScript [] []
           [Returned {| v_items := Some [video "a" 1000 50] |};
            Returned {| v_items := Some [video "b" 500 20] |}].

(** A video whose like count is hidden, and one with no statistics at
    all. *)
Definition hidden_likes : VideoItem :=
  {| v_id := "h"; v_title := "h"; v_publishedAt := "2023-11-14T00:00:00Z";
     viewCount := Some 1234%Z; likeCount := None |}.

Definition no_statistics : VideoItem :=
  {| v_id := "n"; v_title := "n"; v_publishedAt := "2023-11-14T00:00:00Z";
     viewCount := None; likeCount := None |}.

(** The items of a sequence of responses, in order. *)
Definition returned_items (rs : list VideoListResponse) : list VideoItem :=
  flat_map items_or_empty rs.

(** The count a row shows for an optional statistic: the number when it is
    present, 0 when it is absent. *)
Definition shown (count : option Z) (n : Z) : Prop :=
  match count with
  | Some m => n = m
  | None => n = 0%Z
  end.

(** * Properties *)

(** ** The item loop *)

Lemma for_items_app (c : Z) (l l' : list PlaylistItem) :
  forall acc,
    Forall (not_older c) l ->
    for_items c (l ++ l') acc = for_items c l' (acc ++ map videoId l).
Proof.
  induction l as [|item l IH]; intros acc Hl; simpl.
  - now rewrite app_nil_r.
  - inversion Hl as [|? ? Hitem Hrest]; subst.
    unfold not_older in Hitem.
    replace (publishedAt item <? c)%Z with false
      by (symmetry; apply Z.ltb_ge; exact Hitem).
    rewrite IH by assumption.
    now rewrite <- app_assoc.
Qed.

Lemma for_items_completed (c : Z) (l : list PlaylistItem) (acc : list string) :
  Forall (not_older c) l ->
  for_items c l acc = Completed (acc ++ map videoId l).
Proof.
  intros Hl.
  rewrite <- (app_nil_r l) at 1.
  now rewrite for_items_app.
Qed.

Lemma for_items_early (c : Z) (l r : list PlaylistItem) (x : PlaylistItem)
    (acc : list string) :
  Forall (not_older c) l ->
  (publishedAt x < c)%Z ->
  for_items c (l ++ x :: r) acc = EarlyReturn (acc ++ map videoId l).
Proof.
  intros Hl Hx.
  rewrite for_items_app by assumption.
  simpl.
  now apply Z.ltb_lt in Hx as ->.
Qed.

(** What a finished item loop says about the page. *)
Lemma for_items_inv (c : Z) (l : list PlaylistItem) :
  forall acc,
    match for_items c l acc with
    | EarlyReturn ids =>
        exists kept x r,
          l = kept ++ x :: r /\ Forall (not_older c) kept /\
          (publishedAt x < c)%Z /\ ids = acc ++ map videoId kept
    | Completed ids =>
        Forall (not_older c) l /\ ids = acc ++ map videoId l
    end.
Proof.
  induction l as [|item l IH]; intros acc; simpl.
  - split; [constructor | now rewrite app_nil_r].
  - destruct (publishedAt item <? c)%Z eqn:E.
    + apply Z.ltb_lt in E.
      exists [], item, l. simpl.
      repeat split; [constructor | assumption | now rewrite app_nil_r].
    + apply Z.ltb_ge in E.
      specialize (IH (acc ++ [videoId item])).
      destruct (for_items c l (acc ++ [videoId item])) as [ids|ids].
      * destruct IH as (kept & x & r & -> & Hkept & Hx & ->).
        exists (item :: kept), x, r.
        repeat split; [now constructor | assumption |].
        simpl. now rewrite <- app_assoc.
      * destruct IH as (Hl & ->).
        split; [now constructor |].
        simpl. now rewrite <- app_assoc.
Qed.

Lemma has_older_false (c : Z) (p : Page) :
  has_older c p = false -> Forall (not_older c) (pg_items p).
Proof.
  unfold has_older.
  induction (pg_items p) as [|item l IH]; simpl; intros H.
  - constructor.
  - apply orb_false_iff in H as [Hitem Hl].
    constructor; [apply Z.ltb_ge; exact Hitem | now apply IH].
Qed.

Lemma has_older_true (c : Z) (p : Page) :
  has_older c p = true ->
  exists kept x r,
    pg_items p = kept ++ x :: r /\ Forall (not_older c) kept /\
    (publishedAt x < c)%Z.
Proof.
  unfold has_older.
  induction (pg_items p) as [|item l IH]; simpl; intros H.
  - discriminate.
  - destruct (publishedAt item <? c)%Z eqn:E.
    + exists [], item, l. repeat split; [constructor | now apply Z.ltb_lt].
    + simpl in H. destruct (IH H) as (kept & x & r & -> & Hkept & Hx).
      exists (item :: kept), x, r.
      repeat split; [constructor; [apply Z.ltb_ge; exact E | assumption] | assumption].
Qed.

Section Discovery.

Context {St : Type} {youtube : Youtube St}.
Variable pid : string.
Variable c : Z.

(** One turn of the [while True] loop on a well-formed page. *)
Lemma while_true_step (fuel : nat) (acc : list string) (tok : option string)
    (s s1 : St) (tr : list Call) (p : Page) :
  playlistItems_list pid tok s = (Returned (page_response p), s1) ->
  while_true (S fuel) pid c acc tok (mkWorld s tr) =
  let w1 := mkWorld s1 (tr ++ [PlaylistItemsList pid tok]) in
  match for_items c (pg_items p) acc with
  | EarlyReturn ids => Some (Returned ids, w1)
  | Completed ids =>
      if truthy (pg_token p)
      then while_true fuel pid c ids (pg_token p) w1
      else Some (Returned ids, w1)
  end.
Proof.
  intros H. simpl. unfold bind, execute. simpl. rewrite H. simpl.
  destruct (for_items c (pg_items p) acc); [reflexivity |].
  destruct (truthy (pg_token p)); reflexivity.
Qed.

(** Early exit: the item of index [n] is the first one older than the
    cutoff. *)
Lemma while_true_early_exit (pages : list Page) :
  forall (n : nat) (x : PlaylistItem) (tok : option string) (s s_end : St)
         (acc : list string) (tr : list Call) (fuel : nat),
    serves pid s tok pages s_end ->
    linked pages = true ->
    nth_error (all_items pages) n = Some x ->
    (publishedAt x < c)%Z ->
    Forall (not_older c) (firstn n (all_items pages)) ->
    page_index pages n < fuel ->
    exists s_k,
      serves pid s tok (firstn (S (page_index pages n)) pages) s_k /\
      while_true fuel pid c acc tok (mkWorld s tr) =
      Some (Returned (acc ++ map videoId (firstn n (all_items pages))),
            mkWorld s_k
              (tr ++ page_calls pid tok
                       (firstn (S (page_index pages n)) pages))).
Proof.
  induction pages as [|p rest IH];
    intros n x tok s s_end acc tr fuel Hsrv Hlink Hnth Hx Hfresh Hfuel.
  - destruct n; discriminate.
  - inversion Hsrv as [|? ? ? s1 ? ? Hcall Hrest]; subst.
    destruct fuel as [|fuel]; [lia |].
    rewrite (while_true_step _ _ _ _ _ _ _ Hcall).
    cbn [all_items flat_map] in Hnth, Hfresh |- *.
    fold (all_items rest) in Hnth, Hfresh |- *.
    cbn [page_index] in Hfuel |- *.
    destruct (Nat.ltb_spec n (List.length (pg_items p))) as [Hin | Hout].
    + rewrite nth_error_app1 in Hnth by assumption.
      apply nth_error_split in Hnth as (l1 & l2 & Hp & Hlen).
      subst n.
      rewrite Hp in Hfresh |- *.
      rewrite <- app_assoc in Hfresh |- *.
      rewrite firstn_app, Nat.sub_diag in Hfresh |- *.
      rewrite firstn_all, firstn_O, app_nil_r in Hfresh |- *.
      rewrite for_items_early by assumption.
      exists s1. split.
      * cbn. econstructor; [eassumption | constructor].
      * reflexivity.
    + rewrite nth_error_app2 in Hnth by assumption.
      rewrite firstn_app in Hfresh |- *.
      rewrite (firstn_all2 (pg_items p)) in Hfresh |- * by assumption.
      apply Forall_app in Hfresh as [Hpage Hlater].
      rewrite for_items_completed by assumption.
      destruct rest as [|p' rest'] eqn:Erest;
        [destruct (n - List.length (pg_items p)); discriminate |].
      rewrite <- Erest in *.
      assert (Htok : truthy (pg_token p) = true /\ linked rest = true).
      { rewrite Erest. rewrite Erest in Hlink. cbn [linked] in Hlink.
        now apply andb_true_iff in Hlink. }
      destruct Htok as [Htok Hlink'].
      rewrite Htok.
      destruct (IH (n - List.length (pg_items p)) x (pg_token p) s1 s_end
                  (acc ++ map videoId (pg_items p))
                  (tr ++ [PlaylistItemsList pid tok]) fuel)
        as (s_k & Hsrv_k & Hrun); try assumption; [lia |].
      exists s_k. split.
      * rewrite firstn_cons. econstructor; eassumption.
      * rewrite Hrun. rewrite firstn_cons. cbn [page_calls].
        rewrite map_app, <- !app_assoc. reflexivity.
Qed.

(** Safety: whatever is returned is the identifiers of a prefix of the
    items of the pages read, and none of the items kept is older than the
    cutoff. *)
Lemma while_true_sound (fuel : nat) :
  forall (tok : option string) (acc : list string) (s : St) (tr : list Call)
         (ids : list string) (w' : World St),
    while_true fuel pid c acc tok (mkWorld s tr) = Some (Returned ids, w') ->
    exists (pages : list Page) (kept later : list PlaylistItem),
      serves pid s tok pages (platform w') /\
      calls w' = tr ++ page_calls pid tok pages /\
      all_items pages = kept ++ later /\
      Forall (not_older c) kept /\
      ids = acc ++ map videoId kept.
Proof.
  induction fuel as [|fuel IH]; intros tok acc s tr ids w' Hrun.
  - discriminate.
  - simpl in Hrun. unfold bind, execute in Hrun. simpl in Hrun.
    destruct (playlistItems_list pid tok s) as [[res | e] s1] eqn:Hcall;
      [| discriminate].
    destruct res as [[items |] token]; simpl in Hrun; [| discriminate].
    set (p := {| pg_items := items; pg_token := token |}).
    change (playlistItems_list pid tok s = (Returned (page_response p), s1))
      in Hcall.
    pose proof (for_items_inv c items acc) as Hinv.
    destruct (for_items c items acc) as [ids0 | ids0].
    + destruct Hinv as (kept & x & r & Hp & Hkept & Hx & Hids).
      inversion Hrun; subst ids w'; clear Hrun.
      exists [p], kept, (x :: r). cbn.
      refine (conj _ (conj _ (conj _ (conj _ _)))); try assumption.
      * econstructor; [eassumption | constructor].
      * reflexivity.
      * now rewrite app_nil_r.
    + destruct Hinv as (Hpage & Hids).
      destruct (truthy token) eqn:Htok.
      * apply IH in Hrun
          as (pages & kept & later & Hsrv & Hcalls & Hall & Hkept & Hret).
        exists (p :: pages), (items ++ kept), later. cbn.
        refine (conj _ (conj _ (conj _ (conj _ _)))).
        -- econstructor; eassumption.
        -- rewrite Hcalls. now rewrite <- app_assoc.
        -- fold (all_items pages). rewrite Hall. now rewrite app_assoc.
        -- apply Forall_app. now split.
        -- rewrite Hret, Hids, map_app. now rewrite app_assoc.
      * inversion Hrun; subst ids w'; clear Hrun.
        exists [p], items, []. cbn.
        refine (conj _ (conj _ (conj _ (conj _ _)))); try assumption.
        -- econstructor; [eassumption | constructor].
        -- reflexivity.
        -- reflexivity.
Qed.

(** Termination: the loop is left at the first page on which one of the
    two exits applies. *)
Lemma while_true_stops (pages : list Page) :
  forall (tok : option string) (s s_end : St) (acc : list string)
         (tr : list Call) (fuel : nat),
    serves pid s tok pages s_end ->
    existsb (stops c) pages = true ->
    first_stop c pages < fuel ->
    exists (ids : list string) (s_k : St),
      serves pid s tok (firstn (S (first_stop c pages)) pages) s_k /\
      while_true fuel pid c acc tok (mkWorld s tr) =
      Some (Returned ids,
            mkWorld s_k
              (tr ++ page_calls pid tok
                       (firstn (S (first_stop c pages)) pages))).
Proof.
  induction pages as [|p rest IH];
    intros tok s s_end acc tr fuel Hsrv Hex Hfuel.
  - discriminate.
  - inversion Hsrv as [|? ? ? s1 ? ? Hcall Hrest]; subst.
    destruct fuel as [|fuel]; [lia |].
    rewrite (while_true_step _ _ _ _ _ _ _ Hcall).
    cbn [first_stop existsb] in Hex, Hfuel |- *.
    unfold stops in Hex, Hfuel |- *.
    destruct (has_older c p) eqn:Hold; cbn [orb] in Hex, Hfuel |- *.
    + apply has_older_true in Hold as (kept & x & r & Hp & Hkept & Hx).
      rewrite Hp, for_items_early by assumption.
      eexists; exists s1. split; [| reflexivity].
      cbn. econstructor; [eassumption | constructor].
    + apply has_older_false in Hold.
      rewrite for_items_completed by assumption.
      destruct (truthy (pg_token p)) eqn:Htok; cbn [negb] in Hex, Hfuel |- *.
      * destruct (IH (pg_token p) s1 s_end
                    (acc ++ map videoId (pg_items p))
                    (tr ++ [PlaylistItemsList pid tok]) fuel)
          as (ids & s_k & Hsrv_k & Hrun); try assumption; [lia |].
        exists ids, s_k. split.
        -- rewrite firstn_cons. econstructor; eassumption.
        -- rewrite Hrun, firstn_cons. cbn [page_calls].
           now rewrite <- app_assoc.
      * eexists; exists s1. split; [| reflexivity].
        cbn. econstructor; [eassumption | constructor].
Qed.

(** More fuel does not change the outcome of a run that has finished. *)
Lemma while_true_fuel_mono (fuel : nat) :
  forall (extra : nat) (acc : list string) (tok : option string)
         (w : World St) (r : Outcome (list string) * World St),
    while_true fuel pid c acc tok w = Some r ->
    while_true (fuel + extra) pid c acc tok w = Some r.
Proof.
  induction fuel as [|fuel IH]; intros extra acc tok w r Hrun.
  - discriminate.
  - cbn [Nat.add]. simpl in Hrun |- *. unfold bind, execute in Hrun |- *.
    destruct (playlistItems_list pid tok (platform w)) as [[res | e] s1];
      [| exact Hrun].
    destruct (pl_items res) as [items |]; [| exact Hrun].
    destruct (for_items c items acc) as [ids | ids]; [exact Hrun |].
    destruct (truthy (nextPageToken res)); [| exact Hrun].
    now apply IH.
Qed.

End Discovery.

(** ** The cutoff *)

Lemma published_after_of_eq (now days cutoff : Z) :
  published_after_of now days = Returned cutoff ->
  cutoff = (now - days * us_per_day)%Z.
Proof.
  unfold published_after_of, timedelta, datetime_sub.
  destruct (Z.abs days >? 999999999)%Z; [discriminate |].
  destruct ((datetime_min <=? now - days * us_per_day)
            && (now - days * us_per_day <=? datetime_max))%Z;
    [| discriminate].
  intros H. now inversion H.
Qed.

Lemma first_stop_spec (c : Z) (pages : list Page) :
  existsb (stops c) pages = true ->
  (exists p, nth_error pages (first_stop c pages) = Some p /\
             stops c p = true) /\
  (forall i p, i < first_stop c pages ->
               nth_error pages i = Some p -> stops c p = false).
Proof.
  induction pages as [|q rest IH]; simpl; intros Hex.
  - discriminate.
  - destruct (stops c q) eqn:Hq.
    + split; [now exists q | intros i p Hi; lia].
    + simpl in Hex. destruct (IH Hex) as [Hat Hbefore].
      split; [exact Hat |].
      intros [|i] p Hi Hnth; simpl in Hnth.
      * now inversion Hnth; subst.
      * apply (Hbefore i); [lia | assumption].
Qed.

Lemma first_stop_le (c : Z) (pages : list Page) :
  first_stop c pages <= List.length pages.
Proof.
  induction pages as [|q rest IH]; simpl; [lia |].
  destruct (stops c q); lia.
Qed.

Lemma first_stop_lt (c : Z) (pages : list Page) :
  existsb (stops c) pages = true ->
  first_stop c pages < List.length pages.
Proof.
  induction pages as [|q rest IH]; simpl; intros Hex; [discriminate |].
  destruct (stops c q); [lia |].
  simpl in Hex. specialize (IH Hex). lia.
Qed.

Lemma last_page_stops (c : Z) (pages : list Page) (last : Page) :
  truthy (pg_token last) = false ->
  existsb (stops c) (pages ++ [last]) = true.
Proof.
  intros Htok. rewrite existsb_app. simpl. unfold stops at 2.
  rewrite Htok. simpl. now rewrite orb_true_r, orb_true_r.
Qed.

(** A playlist that never ends and never shows an old item keeps the loop
    running: no amount of fuel is enough. *)
Lemma endless_playlist_never_returns (t c : Z) (pid : string) (fuel : nat) :
  (c <= t)%Z ->
  forall (acc : list string) (tok : option string) (w : World unit),
    while_true (youtube := endless t) fuel pid c acc tok w = None.
Proof.
  intros Hc.
  induction fuel as [|fuel IH]; intros acc tok w; [reflexivity |].
  simpl. unfold bind, execute. simpl.
  replace (t <? c)%Z with false by (symmetry; now apply Z.ltb_ge).
  apply IH.
Qed.

(** ** Freshness-bounded discovery: [get_recent_video_ids] *)

Section DiscoveryClaims.

Context {St : Type} {youtube : Youtube St}.

(** The early exit without the ordering assumption: the item of index [n]
    is the first one older than the cutoff. *)
Lemma get_recent_video_ids_early_exit (pid : string) (days now cutoff : Z)
    (pages : list Page) (n : nat) (x : PlaylistItem) (s s_end : St)
    (tr : list Call) (fuel : nat) :
  published_after_of now days = Returned cutoff ->
  serves pid s None pages s_end ->
  linked pages = true ->
  nth_error (all_items pages) n = Some x ->
  (publishedAt x < cutoff)%Z ->
  Forall (not_older cutoff) (firstn n (all_items pages)) ->
  page_index pages n < fuel ->
  exists s_k,
    serves pid s None (firstn (S (page_index pages n)) pages) s_k /\
    get_recent_video_ids fuel pid days now (mkWorld s tr) =
    Some (Returned (map videoId (firstn n (all_items pages))),
          mkWorld s_k
            (tr ++ page_calls pid None
                     (firstn (S (page_index pages n)) pages))).
Proof.
  intros Hcut Hsrv Hlink Hnth Hx Hfresh Hfuel.
  unfold get_recent_video_ids. rewrite Hcut.
  destruct (while_true_early_exit pid cutoff pages n x None s s_end [] tr
              fuel Hsrv Hlink Hnth Hx Hfresh Hfuel) as (s_k & Hsrv_k & Hrun).
  exists s_k. split; [assumption |]. exact Hrun.
Qed.

(** C1. When the pages list the items newest first and the [N]th item,
    counted from 1 across the pages, is the first one published strictly
    before the cutoff [now - days], [get_recent_video_ids] returns the
    video identifiers of the first [N - 1] items, in order, and the only
    calls it issues are the requests for the pages up to the one holding
    the [N]th item. With [N = 1] the result is the empty list, returned
    and not raised. *)
Theorem early_exit_returns_first_items (pid : string) (days now cutoff : Z)
    (pages : list Page) (N : nat) (x : PlaylistItem) (s s_end : St)
    (tr : list Call) (fuel : nat) :
  published_after_of now days = Returned cutoff ->
  serves pid s None pages s_end ->
  linked pages = true ->
  reverse_chronological (all_items pages) = true ->
  1 <= N ->
  nth_error (all_items pages) (N - 1) = Some x ->
  (publishedAt x < cutoff)%Z ->
  Forall (not_older cutoff) (firstn (N - 1) (all_items pages)) ->
  page_index pages (N - 1) < fuel ->
  exists (ids : list string) (s_k : St),
    get_recent_video_ids fuel pid days now (mkWorld s tr) =
    Some (Returned ids,
          mkWorld s_k
            (tr ++ page_calls pid None
                     (firstn (S (page_index pages (N - 1))) pages))) /\
    ids = map videoId (firstn (N - 1) (all_items pages)) /\
    (N = 1 -> ids = []) /\
    serves pid s None (firstn (S (page_index pages (N - 1))) pages) s_k.
Proof.
  intros Hcut Hsrv Hlink _ _ Hnth Hx Hfresh Hfuel.
  destruct (get_recent_video_ids_early_exit pid days now cutoff pages
              (N - 1) x s s_end tr fuel Hcut Hsrv Hlink Hnth Hx Hfresh Hfuel)
    as (s_k & Hsrv_k & Hrun).
  exists (map videoId (firstn (N - 1) (all_items pages))), s_k.
  split; [exact Hrun |]. split; [reflexivity |]. split; [| assumption].
  intros ->. reflexivity.
Qed.

(** The pages read and the items kept, for any run that returns. *)
Lemma get_recent_video_ids_sound (pid : string) (days now : Z) (fuel : nat)
    (s : St) (tr : list Call) (ids : list string) (w' : World St) :
  get_recent_video_ids fuel pid days now (mkWorld s tr) =
  Some (Returned ids, w') ->
  exists (pages : list Page) (kept later : list PlaylistItem),
    serves pid s None pages (platform w') /\
    calls w' = tr ++ page_calls pid None pages /\
    all_items pages = kept ++ later /\
    Forall (not_older (now - days * us_per_day)) kept /\
    ids = map videoId kept.
Proof.
  unfold get_recent_video_ids.
  destruct (published_after_of now days) as [cutoff | e] eqn:Hcut;
    [| discriminate].
  apply published_after_of_eq in Hcut. subst cutoff.
  intros Hrun.
  apply while_true_sound in Hrun
    as (pages & kept & later & Hsrv & Hcalls & Hall & Hkept & Hids).
  now exists pages, kept, later.
Qed.

(** C2. For a window of at least one day, every identifier that
    [get_recent_video_ids] returns is the identifier of an item, among the
    pages it read, that was not published strictly before
    [now - days]; [now] is the one reading of the clock taken before the
    first page is requested. *)
Theorem never_returns_older_than_cutoff (pid : string) (days now : Z)
    (fuel : nat) (s : St) (tr : list Call) (ids : list string)
    (w' : World St) :
  (1 <= days)%Z ->
  get_recent_video_ids fuel pid days now (mkWorld s tr) =
  Some (Returned ids, w') ->
  exists pages : list Page,
    serves pid s None pages (platform w') /\
    forall id : string,
      In id ids ->
      exists item : PlaylistItem,
        In item (all_items pages) /\ videoId item = id /\
        ~ (publishedAt item < now - days * us_per_day)%Z.
Proof.
  intros _ Hrun.
  apply get_recent_video_ids_sound in Hrun
    as (pages & kept & later & Hsrv & _ & Hall & Hkept & ->).
  exists pages. split; [assumption |].
  intros id Hid.
  apply in_map_iff in Hid as (item & Hitem & Hin).
  exists item. split; [| split; [assumption |]].
  - rewrite Hall. apply in_or_app. now left.
  - rewrite Forall_forall in Hkept. specialize (Hkept item Hin).
    unfold not_older in Hkept. lia.
Qed.

(** C3, amended. Every identifier returned by [get_recent_video_ids] is
    the identifier of an item published at or after [now - days]: the
    result is the identifiers of a prefix of the items read, each of them
    at or after that instant. The instant [now] is no upper bound. *)
Theorem returned_items_bounded_below (pid : string) (days now : Z)
    (fuel : nat) (s : St) (tr : list Call) (ids : list string)
    (w' : World St) :
  get_recent_video_ids fuel pid days now (mkWorld s tr) =
  Some (Returned ids, w') ->
  exists (pages : list Page) (kept later : list PlaylistItem),
    serves pid s None pages (platform w') /\
    all_items pages = kept ++ later /\
    ids = map videoId kept /\
    Forall (fun item => (now - days * us_per_day <= publishedAt item)%Z)
           kept.
Proof.
  intros Hrun.
  apply get_recent_video_ids_sound in Hrun
    as (pages & kept & later & Hsrv & _ & Hall & Hkept & Hids).
  now exists pages, kept, later.
Qed.

(** C9. When the pages end with one that carries no continuation token,
    [get_recent_video_ids] finishes within as many turns of the loop as
    there are pages, and the loop is left at the first page that has an
    item older than the cutoff or no continuation token: that page is
    requested, the pages before it have neither, and no page after it is
    requested. *)
Theorem page_loop_terminates (pid : string) (days now : Z)
    (pages : list Page) (last : Page) (s s_end : St) (tr : list Call)
    (fuel : nat) :
  serves pid s None (pages ++ [last]) s_end ->
  truthy (pg_token last) = false ->
  List.length (pages ++ [last]) <= fuel ->
  exists (out : Outcome (list string)) (w' : World St),
    get_recent_video_ids fuel pid days now (mkWorld s tr) = Some (out, w') /\
    forall cutoff : Z,
      published_after_of now days = Returned cutoff ->
      let k := first_stop cutoff (pages ++ [last]) in
      (exists ids, out = Returned ids) /\
      calls w' = tr ++ page_calls pid None (firstn (S k) (pages ++ [last])) /\
      (exists p, nth_error (pages ++ [last]) k = Some p /\
                 stops cutoff p = true) /\
      (forall i p, i < k -> nth_error (pages ++ [last]) i = Some p ->
                   stops cutoff p = false).
Proof.
  intros Hsrv Htok Hfuel.
  unfold get_recent_video_ids.
  destruct (published_after_of now days) as [cutoff | e] eqn:Hcut.
  - pose proof (last_page_stops cutoff pages last Htok) as Hex.
    pose proof (first_stop_lt cutoff _ Hex) as Hlt.
    destruct (while_true_stops pid cutoff (pages ++ [last]) None s s_end []
                tr fuel Hsrv Hex) as (ids & s_k & Hsrv_k & Hrun); [lia |].
    eexists; eexists. split; [exact Hrun |].
    intros cutoff' Heq. inversion Heq; subst cutoff'. cbn zeta.
    destruct (first_stop_spec cutoff _ Hex) as [Hat Hbefore].
    split; [now exists ids |]. split; [reflexivity |]. now split.
  - eexists; eexists. split; [reflexivity |].
    intros cutoff Heq. discriminate.
Qed.

End DiscoveryClaims.

(** ** Statistics aggregator: [get_video_stats] *)

Lemma returned_rows_ids (rs : list VideoListResponse) :
  map video_id (returned_rows rs) = returned_ids rs.
Proof.
  unfold returned_rows, returned_ids.
  induction rs as [|res rs IH]; simpl; [reflexivity |].
  rewrite map_app, IH, map_map. reflexivity.
Qed.

(** The slices rebuild the input: [chunks] cuts [video_ids] into consecutive
    pieces. *)
Lemma concat_slices {A : Type} (m : nat) :
  forall l : list A,
    List.length l <= m * 50 ->
    List.concat
      (map (fun k => slice l (0 + k * 50) (0 + k * 50 + 50)) (seq 0 m))
    = l.
Proof.
  induction m as [|m IH]; intros l Hlen.
  - destruct l; [reflexivity | simpl in Hlen; lia].
  - rewrite <- cons_seq, <- seq_shift, map_cons, map_map. cbn [List.concat].
    transitivity (firstn 50 l ++ skipn 50 l); [| apply firstn_skipn].
    apply (f_equal2 (@app A)); [reflexivity |].
    rewrite <- (IH (skipn 50 l)) by (rewrite length_skipn; lia).
    f_equal. apply map_ext. intros k. unfold slice.
    rewrite skipn_skipn.
    replace (0 + S k * 50 + 50 - (0 + S k * 50)) with 50 by lia.
    replace (0 + k * 50 + 50 - (0 + k * 50)) with 50 by lia.
    replace (0 + S k * 50) with (0 + k * 50 + 50) by lia.
    reflexivity.
Qed.

Lemma concat_chunks (video_ids : list string) :
  List.concat (chunks video_ids) = video_ids.
Proof.
  unfold chunks, range. rewrite map_map.
  apply concat_slices.
  rewrite Nat.sub_0_r.
  pose proof (Nat.div_mod_eq (List.length video_ids + 50 - 1) 50) as Hdiv.
  pose proof (Nat.mod_upper_bound (List.length video_ids + 50 - 1) 50) as Hmod.
  lia.
Qed.

Section Aggregator.

Context {St : Type} {youtube : Youtube St}.

Lemma for_chunks_answers (video_ids : list string) (starts : list nat) :
  forall (rows : list Row) (s s' : St) (tr : list Call)
         (rs : list VideoListResponse),
    answers s (map (fun i => join_ids (slice video_ids i (i + 50))) starts)
            rs s' ->
    for_chunks video_ids starts rows (mkWorld s tr) =
    Some (Returned (rows ++ returned_rows rs),
          mkWorld s'
            (tr ++ map (fun i =>
                          VideosList (join_ids (slice video_ids i (i + 50))))
                       starts)).
Proof.
  induction starts as [|i starts IH]; intros rows s s' tr rs Hans;
    inversion Hans as [| ? ? res s1 ? rs' ? Hcall Hrest]; subst.
  - cbn. now rewrite !app_nil_r.
  - cbn [for_chunks]. unfold bind, execute. cbn [platform calls].
    rewrite Hcall.
    rewrite (IH _ _ _ _ _ Hrest).
    cbn [map returned_rows flat_map].
    now rewrite <- !app_assoc.
Qed.

(** The guard on the empty input agrees with a loop over no batch. *)
Lemma get_video_stats_for_chunks (video_ids : list string) (w : World St) :
  get_video_stats video_ids w =
  for_chunks video_ids (range 0 (List.length video_ids) 50) [] w.
Proof. destruct video_ids; reflexivity. Qed.

(** The calls and the table of a run in which the batches [chunks
    video_ids] are answered with [rs]. *)
Lemma get_video_stats_answers (video_ids : list string) (s s' : St)
    (tr : list Call) (rs : list VideoListResponse) :
  answers s (map join_ids (chunks video_ids)) rs s' ->
  get_video_stats video_ids (mkWorld s tr) =
  Some (Returned (returned_rows rs),
        mkWorld s'
          (tr ++ map VideosList (map join_ids (chunks video_ids)))).
Proof.
  unfold chunks. rewrite !map_map. intros Hans.
  rewrite get_video_stats_for_chunks.
  exact (for_chunks_answers _ _ [] _ _ _ _ Hans).
Qed.

End Aggregator.

Lemma NoDup_app_disjoint {A : Type} (l l' : list A) :
  NoDup (l ++ l') -> forall a, In a l -> ~ In a l'.
Proof.
  induction l as [|b l IH]; simpl; intros Hnd a Hin; [contradiction |].
  inversion Hnd as [|? ? Hb Hrest]; subst.
  destruct Hin as [-> | Hin].
  - intros Ha. apply Hb. apply in_or_app. now right.
  - now apply IH.
Qed.

(** Responses that pick, without repetition, among the identifiers of their
    own batch cannot repeat an identifier across distinct batches. *)
Lemma NoDup_responses {A B : Type} (f : B -> list A)
    (ls : list (list A)) (rs : list B) :
  Forall2 (fun l r => NoDup (f r) /\ incl (f r) l) ls rs ->
  NoDup (List.concat ls) ->
  NoDup (flat_map f rs) /\ incl (flat_map f rs) (List.concat ls).
Proof.
  induction 1 as [|l r ls rs [Hnd Hincl] _ IH]; simpl; intros Hall.
  - split; [constructor | apply incl_refl].
  - destruct (IH (NoDup_app_remove_l _ _ Hall)) as [Hrest Hsub].
    split.
    + apply NoDup_app; try assumption.
      intros a Ha Ha'.
      apply (NoDup_app_disjoint _ _ Hall a); [now apply Hincl | now apply Hsub].
    + apply incl_app_app; assumption.
Qed.

Lemma returned_rows_empty (rs : list VideoListResponse) :
  Forall (fun res => items_or_empty res = []) rs -> returned_rows rs = [].
Proof.
  unfold returned_rows.
  induction 1 as [|res rs Hres _ IH]; simpl; [reflexivity |].
  now rewrite Hres, IH.
Qed.

Section AggregatorClaims.

Context {St : Type} {youtube : Youtube St}.

(** C7. On the empty list of identifiers [get_video_stats] returns the
    empty table and leaves the world as it found it: no call is issued. *)
Theorem empty_input_no_calls (w : World St) :
  get_video_stats [] w = Some (Returned [], w) /\
  empty [] = true.
Proof. split; reflexivity. Qed.

(** C8. On 120 identifiers, when the platform answers the three requests
    for [",".join(video_ids[0:50])], [",".join(video_ids[50:100])] and
    [",".join(video_ids[100:150])], [get_video_stats] returns, and the calls
    it has issued are exactly these three, in this order; the slices have
    50, 50 and 20 identifiers and, put end to end, are the input. *)
Theorem stats_120_three_batches (video_ids : list string) (s s' : St)
    (tr : list Call) (rs : list VideoListResponse) :
  List.length video_ids = 120 ->
  answers s [String.concat "," (slice video_ids 0 50);
             String.concat "," (slice video_ids 50 100);
             String.concat "," (slice video_ids 100 150)] rs s' ->
  get_video_stats video_ids (mkWorld s tr) =
  Some (Returned (returned_rows rs),
        mkWorld s'
          (tr ++ [VideosList (String.concat "," (slice video_ids 0 50));
                  VideosList (String.concat "," (slice video_ids 50 100));
                  VideosList (String.concat "," (slice video_ids 100 150))])) /\
  List.length (slice video_ids 0 50) = 50 /\
  List.length (slice video_ids 50 100) = 50 /\
  List.length (slice video_ids 100 150) = 20 /\
  slice video_ids 0 50 ++ slice video_ids 50 100
    ++ slice video_ids 100 150 = video_ids.
Proof.
  intros Hlen Hans.
  assert (Hchunks : chunks video_ids =
                    [slice video_ids 0 50; slice video_ids 50 100;
                     slice video_ids 100 150]).
  { unfold chunks. rewrite Hlen. reflexivity. }
  split.
  - assert (Hans' : answers s (map join_ids (chunks video_ids)) rs s')
      by (rewrite Hchunks; exact Hans).
    rewrite (get_video_stats_answers _ _ _ tr _ Hans'), Hchunks. reflexivity.
  - unfold slice. rewrite !length_firstn, !length_skipn, Hlen.
    repeat (split; [reflexivity |]).
    pose proof (concat_chunks video_ids) as Hcat.
    rewrite Hchunks in Hcat. cbn [List.concat] in Hcat.
    rewrite app_nil_r in Hcat. exact Hcat.
Qed.

(** C4, amended. For every input and every sequence of batch responses, the
    table has one row per returned item, in the order of the calls and of
    the items within each response: nothing is merged, and the identifiers
    of the rows are the identifiers of the returned items, each as often as
    it is returned. So the rows are unique by identifier exactly when no
    identifier occurs twice among the items of all the responses. *)
Theorem table_has_one_row_per_returned_item (video_ids : list string)
    (s s' : St) (tr : list Call) (rs : list VideoListResponse) :
  answers s (map join_ids (chunks video_ids)) rs s' ->
  exists df : DataFrame,
    get_video_stats video_ids (mkWorld s tr) =
    Some (Returned df,
          mkWorld s'
            (tr ++ map VideosList (map join_ids (chunks video_ids)))) /\
    df = flat_map (fun res => map row_of (items_or_empty res)) rs /\
    map video_id df = returned_ids rs /\
    List.length df = List.length (returned_ids rs) /\
    (NoDup (map video_id df) <-> NoDup (returned_ids rs)).
Proof.
  intros Hans.
  exists (returned_rows rs).
  split; [exact (get_video_stats_answers _ _ _ _ _ Hans) |].
  split; [reflexivity |].
  pose proof (returned_rows_ids rs) as Hids.
  split; [exact Hids |]. split.
  - rewrite <- Hids. now rewrite length_map.
  - now rewrite Hids.
Qed.

(** With pairwise distinct input identifiers and responses that return,
    each at most once, only identifiers of their own batch, the rows are
    unique by identifier. *)
Lemma rows_unique_for_distinct_input (video_ids : list string)
    (s s' : St) (tr : list Call) (rs : list VideoListResponse) :
  answers s (map join_ids (chunks video_ids)) rs s' ->
  NoDup video_ids ->
  Forall2 (fun chunk res =>
             NoDup (map v_id (items_or_empty res)) /\
             incl (map v_id (items_or_empty res)) chunk)
          (chunks video_ids) rs ->
  exists (df : DataFrame) (w' : World St),
    get_video_stats video_ids (mkWorld s tr) = Some (Returned df, w') /\
    NoDup (map video_id df) /\
    incl (map video_id df) video_ids.
Proof.
  intros Hans Hnd Hrs.
  exists (returned_rows rs). eexists.
  split; [exact (get_video_stats_answers _ _ _ tr _ Hans) |].
  rewrite returned_rows_ids. unfold returned_ids.
  rewrite <- (concat_chunks video_ids) in Hnd |- *.
  now apply NoDup_responses.
Qed.

(** C10. When every statistics response of the run is empty (no ["items"]
    key, or an empty list), [get_video_stats] returns, for a non-empty list
    of identifiers, the empty table, the table it returns for the empty
    list; and a fetch sequence whose first two stages produced these
    identifiers ends on the "no videos" warning, not on an error message. *)
Theorem all_batches_empty_gives_no_data (video_ids : list string)
    (s s' : St) (tr : list Call) (rs : list VideoListResponse) :
  video_ids <> [] ->
  answers s (map join_ids (chunks video_ids)) rs s' ->
  Forall (fun res => items_or_empty res = []) rs ->
  get_video_stats video_ids (mkWorld s tr) =
  Some (Returned [],
        mkWorld s' (tr ++ map VideosList (map join_ids (chunks video_ids)))) /\
  get_video_stats [] (mkWorld s tr) = Some (Returned [], mkWorld s tr) /\
  forall (fuel : nat) (channel_id uploads_id : string) (days now : Z)
         (w0 w1 : World St),
    get_uploads_playlist_id channel_id w0 = Some (Returned uploads_id, w1) ->
    get_recent_video_ids fuel uploads_id days now w1 =
    Some (Returned video_ids, mkWorld s tr) ->
    analyze fuel channel_id days now w0 =
    Some (NoVideosWarning,
          mkWorld s' (tr ++ map VideosList (map join_ids (chunks video_ids)))).
Proof.
  intros _ Hans Hrs.
  pose proof (get_video_stats_answers _ _ _ tr _ Hans) as Hrun.
  rewrite (returned_rows_empty _ Hrs) in Hrun.
  split; [exact Hrun |]. split; [reflexivity |].
  intros fuel channel_id uploads_id days now w0 w1 Hup Hids.
  unfold analyze, fetch, bind. rewrite Hup, Hids, Hrun. reflexivity.
Qed.

(** C6. When the channel lookup comes back with no item (the key is absent
    or the list is empty), [get_uploads_playlist_id] raises the
    invalid-channel error, and the fetch sequence ends on that error
    message with the channel lookup as its only remote call: no playlist
    page and no statistics were requested. *)
Theorem zero_matches_raises_before_other_calls (channel_id : string)
    (s s1 : St) (tr : list Call) (res : ChannelListResponse) :
  channels_list channel_id s = (Returned res, s1) ->
  ch_items res = None \/ ch_items res = Some [] ->
  get_uploads_playlist_id channel_id (mkWorld s tr) =
  Some (Raised invalid_channel,
        mkWorld s1 (tr ++ [ChannelsList channel_id])) /\
  forall (fuel : nat) (days now : Z),
    analyze fuel channel_id days now (mkWorld s tr) =
    Some (ErrorMessage invalid_channel,
          mkWorld s1 (tr ++ [ChannelsList channel_id])).
Proof.
  intros Hcall Hzero.
  assert (Hraise : get_uploads_playlist_id channel_id (mkWorld s tr) =
                   Some (Raised invalid_channel,
                         mkWorld s1 (tr ++ [ChannelsList channel_id]))).
  { unfold get_uploads_playlist_id, bind, execute. cbn [platform calls].
    rewrite Hcall. destruct Hzero as [-> | ->]; reflexivity. }
  split; [exact Hraise |].
  intros fuel days now.
  unfold analyze, fetch, bind. rewrite Hraise. reflexivity.
Qed.

End AggregatorClaims.

(** * Concrete runs *)

Lemma three_pages_served :
  serves "UU" three_pages None [page1; page2; page3] (mkScript [] [] []).
Proof.
  repeat (econstructor; [reflexivity |]). constructor.
Qed.

Lemma early_exit_returns_first_items_witness :
  exists (ids : list string) (s_k : Script),
    get_recent_video_ids 2 "UU" 7 now0 (mkWorld three_pages []) =
    Some (Returned ids,
          mkWorld s_k [PlaylistItemsList "UU" None;
                       PlaylistItemsList "UU" (Some "CAIQAA")]) /\
    ids = ["v1"; "v2"; "v3"] /\
    (4 = 1 -> ids = []) /\
    serves "UU" three_pages None [page1; page2] s_k.
Proof.
  apply (early_exit_returns_first_items "UU" 7 now0 cutoff0
           [page1; page2; page3] 4 (item_at 9 "v4") three_pages
           (mkScript [] [] []) [] 2).
  - reflexivity.
  - exact three_pages_served.
  - reflexivity.
  - reflexivity.
  - lia.
  - reflexivity.
  - vm_compute. reflexivity.
  - repeat constructor; vm_compute; discriminate.
  - vm_compute. lia.
Defined.

(** The edge case of C1 on its own: the first item is already older than
    the cutoff. *)
Lemma first_item_older_returns_empty {St : Type} {youtube : Youtube St}
    (pid : string) (days now cutoff : Z) (x : PlaylistItem)
    (l : list PlaylistItem) (tok : option string) (s s1 : St)
    (tr : list Call) (fuel : nat) :
  published_after_of now days = Returned cutoff ->
  playlistItems_list pid None s =
  (Returned {| pl_items := Some (x :: l); nextPageToken := tok |}, s1) ->
  (publishedAt x < cutoff)%Z ->
  get_recent_video_ids (S fuel) pid days now (mkWorld s tr) =
  Some (Returned [], mkWorld s1 (tr ++ [PlaylistItemsList pid None])).
Proof.
  intros Hcut Hcall Hx.
  unfold get_recent_video_ids. rewrite Hcut.
  rewrite (while_true_step pid cutoff fuel [] None s s1 tr
             {| pg_items := x :: l; pg_token := tok |} Hcall).
  cbn. apply Z.ltb_lt in Hx. now rewrite Hx.
Qed.

Lemma never_returns_older_than_cutoff_witness :
  exists pages : list Page,
    serves "UU" three_pages None pages (mkScript [] [Returned (page_response page3)] []) /\
    forall id : string,
      In id ["v1"; "v2"; "v3"] ->
      exists item : PlaylistItem,
        In item (all_items pages) /\ videoId item = id /\
        ~ (publishedAt item < now0 - 7 * us_per_day)%Z.
Proof.
  apply (never_returns_older_than_cutoff "UU" 7 now0 2 three_pages []
           ["v1"; "v2"; "v3"]
           (mkWorld (mkScript [] [Returned (page_response page3)] [])
              [PlaylistItemsList "UU" None;
               PlaylistItemsList "UU" (Some "CAIQAA")])).
  - lia.
  - reflexivity.
Defined.

Lemma returned_items_bounded_below_witness :
  exists (pages : list Page) (kept later : list PlaylistItem),
    serves "UU" three_pages None pages
      (mkScript [] [Returned (page_response page3)] []) /\
    all_items pages = kept ++ later /\
    ["v1"; "v2"; "v3"] = map videoId kept /\
    Forall (fun item => (now0 - 7 * us_per_day <= publishedAt item)%Z) kept.
Proof.
  apply (returned_items_bounded_below "UU" 7 now0 2 three_pages []
           ["v1"; "v2"; "v3"]
           (mkWorld (mkScript [] [Returned (page_response page3)] [])
              [PlaylistItemsList "UU" None;
               PlaylistItemsList "UU" (Some "CAIQAA")])).
  reflexivity.
Defined.

(** C3 as stated fails: a page whose single item is stamped one microsecond
    after the clock reading [now0] (a video published while the call is
    under way, or a platform clock ahead of the local one). Its identifier
    is returned, although the instant is outside [[now0 - 7 days, now0]]. *)
Lemma returns_item_later_than_now :
  get_recent_video_ids 1 "UU" 7 now0
    (mkWorld (mkScript [] [Returned (page_response premiere_page)] []) []) =
  Some (Returned ["premiere"],
        mkWorld (mkScript [] [] []) [PlaylistItemsList "UU" None]) /\
  forall item : PlaylistItem,
    In item (pg_items premiere_page) ->
    videoId item = "premiere" ->
    ~ (now0 - 7 * us_per_day <= publishedAt item <= now0)%Z.
Proof.
  split; [reflexivity |].
  intros item [<- | []] _. cbn. unfold now0. lia.
Qed.

Lemma page_loop_terminates_witness :
  exists (out : Outcome (list string)) (w' : World Script),
    get_recent_video_ids 3 "UU" 7 now0 (mkWorld three_pages []) =
    Some (out, w') /\
    forall cutoff : Z,
      published_after_of now0 7 = Returned cutoff ->
      let k := first_stop cutoff ([page1; page2] ++ [page3]) in
      (exists ids, out = Returned ids) /\
      calls w' =
      [] ++ page_calls "UU" None (firstn (S k) ([page1; page2] ++ [page3])) /\
      (exists p, nth_error ([page1; page2] ++ [page3]) k = Some p /\
                 stops cutoff p = true) /\
      (forall i p, i < k -> nth_error ([page1; page2] ++ [page3]) i = Some p ->
                   stops cutoff p = false).
Proof.
  apply (page_loop_terminates "UU" 7 now0 [page1; page2] page3 three_pages
           (mkScript [] [] []) [] 3).
  - exact three_pages_served.
  - reflexivity.
  - cbn. lia.
Defined.

Lemma zero_matches_raises_before_other_calls_witness :
  get_uploads_playlist_id "UCnone"
    (mkWorld (mkScript [Returned {| ch_items := Some [] |}] [] []) []) =
  Some (Raised invalid_channel,
        mkWorld (mkScript [] [] []) ([] ++ [ChannelsList "UCnone"])) /\
  forall (fuel : nat) (days now : Z),
    analyze fuel "UCnone" days now
      (mkWorld (mkScript [Returned {| ch_items := Some [] |}] [] []) []) =
    Some (ErrorMessage invalid_channel,
          mkWorld (mkScript [] [] []) ([] ++ [ChannelsList "UCnone"])).
Proof.
  apply (zero_matches_raises_before_other_calls "UCnone"
           (mkScript [Returned {| ch_items := Some [] |}] [] [])
           (mkScript [] [] []) [] {| ch_items := Some [] |}).
  - reflexivity.
  - right. reflexivity.
Defined.

Lemma stats_120_three_batches_witness :
  get_video_stats ids120 (mkWorld three_batches_answered []) =
  Some (Returned (returned_rows [batch1_found; batch2_found; batch3_found]),
        mkWorld (mkScript [] [] [])
          ([] ++ [VideosList (String.concat "," (slice ids120 0 50));
                  VideosList (String.concat "," (slice ids120 50 100));
                  VideosList (String.concat "," (slice ids120 100 150))])) /\
  List.length (slice ids120 0 50) = 50 /\
  List.length (slice ids120 50 100) = 50 /\
  List.length (slice ids120 100 150) = 20 /\
  slice ids120 0 50 ++ slice ids120 50 100 ++ slice ids120 100 150 = ids120.
Proof.
  apply (stats_120_three_batches ids120 three_batches_answered
           (mkScript [] [] []) []
           [batch1_found; batch2_found; batch3_found]).
  - reflexivity.
  - repeat (econstructor; [reflexivity |]). constructor.
Defined.

(** The same run with the three requests and the table written out. *)
Lemma stats_120_run :
  get_video_stats ids120 (mkWorld three_batches_answered []) =
  Some (Returned [row_of (video "A0" 1000 50); row_of (video "A1" 7 0);
                  row_of (video "F0" 500 20); row_of (video "L9" 10000 5)],
        mkWorld (mkScript [] [] [])
          [VideosList
             "A0,A1,A2,A3,A4,A5,A6,A7,A8,A9,B0,B1,B2,B3,B4,B5,B6,B7,B8,B9,C0,C1,C2,C3,C4,C5,C6,C7,C8,C9,D0,D1,D2,D3,D4,D5,D6,D7,D8,D9,E0,E1,E2,E3,E4,E5,E6,E7,E8,E9";
           VideosList
             "F0,F1,F2,F3,F4,F5,F6,F7,F8,F9,G0,G1,G2,G3,G4,G5,G6,G7,G8,G9,H0,H1,H2,H3,H4,H5,H6,H7,H8,H9,I0,I1,I2,I3,I4,I5,I6,I7,I8,I9,J0,J1,J2,J3,J4,J5,J6,J7,J8,J9";
           VideosList
             "K0,K1,K2,K3,K4,K5,K6,K7,K8,K9,L0,L1,L2,L3,L4,L5,L6,L7,L8,L9"]).
Proof. reflexivity. Qed.

Lemma table_has_one_row_per_returned_item_witness :
  exists df : DataFrame,
    get_video_stats (repeat "a" 50 ++ ["b"]) (mkWorld two_batches []) =
    Some (Returned df,
          mkWorld (mkScript [] [] [])
            ([] ++ map VideosList
                     (map join_ids (chunks (repeat "a" 50 ++ ["b"]))))) /\
    df = flat_map (fun res => map row_of (items_or_empty res))
                  [ {| v_items := Some [video "a" 1000 50] |};
                    {| v_items := Some [video "b" 500 20] |} ] /\
    map video_id df =
    returned_ids [ {| v_items := Some [video "a" 1000 50] |};
                   {| v_items := Some [video "b" 500 20] |} ] /\
    List.length df =
    List.length
      (returned_ids [ {| v_items := Some [video "a" 1000 50] |};
                      {| v_items := Some [video "b" 500 20] |} ]) /\
    (NoDup (map video_id df) <->
     NoDup (returned_ids [ {| v_items := Some [video "a" 1000 50] |};
                           {| v_items := Some [video "b" 500 20] |} ])).
Proof.
  apply (table_has_one_row_per_returned_item (repeat "a" 50 ++ ["b"])
           two_batches (mkScript [] [] []) []
           [ {| v_items := Some [video "a" 1000 50] |};
             {| v_items := Some [video "b" 500 20] |} ]).
  repeat (econstructor; [reflexivity |]). constructor.
Defined.

(** The same run written out: two calls, two rows, in the order of the
    calls. *)
Lemma two_batches_run :
  get_video_stats (repeat "a" 50 ++ ["b"]) (mkWorld two_batches []) =
  Some (Returned [row_of (video "a" 1000 50); row_of (video "b" 500 20)],
        mkWorld (mkScript [] [] [])
          [VideosList (String.concat "," (repeat "a" 50)); VideosList "b"]).
Proof. reflexivity. Qed.

(** C4 as stated fails: 51 identifiers make two batches; the video ["a"] is
    asked for in both, each response returns it once, and the table has two
    rows for it. *)
Lemma duplicate_rows_across_batches :
  exists w' : World Script,
    get_video_stats (repeat "a" 51)
      (mkWorld
         (mkScript [] []
            [Returned {| v_items := Some [video "a" 1000 50] |};
             Returned {| v_items := Some [video "a" 1000 50] |}])
         []) =
    Some (Returned [row_of (video "a" 1000 50); row_of (video "a" 1000 50)],
          w') /\
    List.length (calls w') = 2 /\
    ~ NoDup (map video_id
               [row_of (video "a" 1000 50); row_of (video "a" 1000 50)]).
Proof.
  eexists. split; [lazy; reflexivity |]. split; [reflexivity |].
  cbn. intros H. inversion H as [|? ? Hin _]; subst. apply Hin. now left.
Qed.

Lemma all_batches_empty_gives_no_data_witness :
  get_video_stats ["v1"; "v2"; "v3"]
    (mkWorld (mkScript [] [Returned (page_response page3)]
                [Returned {| v_items := Some [] |}])
       discovery_calls) =
  Some (Returned [],
        mkWorld (mkScript [] [Returned (page_response page3)] [])
          (discovery_calls
             ++ map VideosList (map join_ids (chunks ["v1"; "v2"; "v3"])))) /\
  get_video_stats []
    (mkWorld (mkScript [] [Returned (page_response page3)]
                [Returned {| v_items := Some [] |}])
       discovery_calls) =
  Some (Returned [],
        mkWorld (mkScript [] [Returned (page_response page3)]
                   [Returned {| v_items := Some [] |}])
          discovery_calls) /\
  forall (fuel : nat) (channel_id uploads_id : string) (days now : Z)
         (w0 w1 : World Script),
    get_uploads_playlist_id channel_id w0 = Some (Returned uploads_id, w1) ->
    get_recent_video_ids fuel uploads_id days now w1 =
    Some (Returned ["v1"; "v2"; "v3"],
          mkWorld (mkScript [] [Returned (page_response page3)]
                     [Returned {| v_items := Some [] |}])
            discovery_calls) ->
    analyze fuel channel_id days now w0 =
    Some (NoVideosWarning,
          mkWorld (mkScript [] [Returned (page_response page3)] [])
            (discovery_calls
               ++ map VideosList (map join_ids (chunks ["v1"; "v2"; "v3"])))).
Proof.
  apply (all_batches_empty_gives_no_data ["v1"; "v2"; "v3"]
           (mkScript [] [Returned (page_response page3)]
              [Returned {| v_items := Some [] |}])
           (mkScript [] [Returned (page_response page3)] [])
           discovery_calls
           [ {| v_items := Some [] |} ]).
  - discriminate.
  - econstructor; [reflexivity | constructor].
  - repeat constructor.
Defined.

(** The whole fetch sequence on the scripted platform whose three recent
    videos have been removed: the statistics response is empty and the
    query ends on the warning. *)
Lemma removed_videos_scripted_run :
  analyze 2 "UC" 7 now0 (mkWorld all_gone []) =
  Some (NoVideosWarning,
        mkWorld (mkScript [] [Returned (page_response page3)] [])
          [ChannelsList "UC"; PlaylistItemsList "UU" None;
           PlaylistItemsList "UU" (Some "CAIQAA"); VideosList "v1,v2,v3"]).
Proof. reflexivity. Qed.

(** The whole fetch sequence on that platform: three calls to find the
    recent videos, one statistics call that returns nothing, and the
    warning. *)
Lemma removed_videos_end_on_warning :
  analyze 2 "UC" 7 now0 (mkWorld three_responses []) =
  Some (NoVideosWarning,
        mkWorld [Returned (page_response page3)]
          [ChannelsList "UC"; PlaylistItemsList "UU" None;
           PlaylistItemsList "UU" (Some "CAIQAA"); VideosList "v1,v2,v3"]).
Proof. reflexivity. Qed.

(** The fetch sequence when the statistics are there: the dashboard is
    drawn from one row per video, in the order of the response. *)
Lemma fetch_sequence_reaches_dashboard :
  analyze 2 "UC" 7 now0
    (mkWorld
       (mkScript
          [Returned {| ch_items := Some [ {| uploads := "UU" |} ] |}]
          (map (fun p => Returned (page_response p)) [page1; page2; page3])
          [Returned {| v_items := Some [video "v1" 1000 50; video "v2" 500 20;
                                        video "v3" 10000 5] |}])
       []) =
  Some (Dashboard [row_of (video "v1" 1000 50); row_of (video "v2" 500 20);
                   row_of (video "v3" 10000 5)],
        mkWorld (mkScript [] [Returned (page_response page3)] [])
          [ChannelsList "UC"; PlaylistItemsList "UU" None;
           PlaylistItemsList "UU" (Some "CAIQAA"); VideosList "v1,v2,v3"]).
Proof. reflexivity. Qed.

(** * Further properties *)

(** ** Conversations, cut in two *)

Lemma stops_false (c : Z) (p : Page) :
  stops c p = false ->
  Forall (not_older c) (pg_items p) /\ truthy (pg_token p) = true.
Proof.
  unfold stops. intros H. apply orb_false_iff in H as [Hold Htok].
  split; [now apply has_older_false | now apply negb_false_iff in Htok].
Qed.

Lemma has_older_fresh (c : Z) (p : Page) :
  Forall (not_older c) (pg_items p) -> has_older c p = false.
Proof.
  unfold has_older.
  induction 1 as [|item l Hitem _ IH]; simpl; [reflexivity |].
  rewrite IH, orb_false_r. now apply Z.ltb_ge.
Qed.

Lemma all_items_app (l1 l2 : list Page) :
  all_items (l1 ++ l2) = all_items l1 ++ all_items l2.
Proof. unfold all_items. apply flat_map_app. Qed.

Lemma linked_app_last (pages : list Page) (last : Page) :
  linked (pages ++ [last]) = true ->
  Forall (fun p => truthy (pg_token p) = true) pages.
Proof.
  induction pages as [|p rest IH]; intros H; [constructor |].
  cbn [app linked] in H.
  destruct (rest ++ [last]) as [|q l] eqn:E.
  - destruct rest; discriminate.
  - apply andb_true_iff in H as [Hp Hrest].
    constructor; [assumption | now apply IH].
Qed.

Lemma page_index_lt (pages : list Page) :
  forall n, n < List.length (all_items pages) ->
            page_index pages n < List.length pages.
Proof.
  induction pages as [|p rest IH]; intros n Hn.
  - cbn in Hn. lia.
  - change (all_items (p :: rest)) with (pg_items p ++ all_items rest) in Hn.
    rewrite length_app in Hn.
    cbn [page_index List.length].
    destruct (Nat.ltb_spec n (List.length (pg_items p))); [lia |].
    specialize (IH (n - List.length (pg_items p))). lia.
Qed.

Section Cutting.

Context {St : Type} {youtube : Youtube St}.
Variable pid : string.

Lemma serves_app_inv (l1 l2 : list Page) :
  forall (s s_end : St) (tok : option string),
    serves pid s tok (l1 ++ l2) s_end ->
    exists s_mid,
      serves pid s tok l1 s_mid /\
      serves pid s_mid (next_token tok l1) l2 s_end.
Proof.
  induction l1 as [|p l1 IH]; intros s s_end tok H; cbn in *.
  - exists s. split; [constructor | assumption].
  - inversion H as [|? ? ? s1 ? ? Hcall Hrest]; subst.
    destruct (IH _ _ _ Hrest) as (s_mid & H1 & H2).
    exists s_mid. split; [econstructor; eassumption | assumption].
Qed.

Lemma page_calls_app (l1 l2 : list Page) :
  forall tok : option string,
    page_calls pid tok (l1 ++ l2) =
    page_calls pid tok l1 ++ page_calls pid (next_token tok l1) l2.
Proof.
  induction l1 as [|p l1 IH]; intros tok; cbn; [reflexivity |].
  now rewrite IH.
Qed.

Variable c : Z.

(** Pages that trigger neither exit are read one after the other and all
    their items are kept. *)
Lemma while_true_through (pages : list Page) :
  forall (tok : option string) (s s_k : St) (acc : list string)
         (tr : list Call) (fuel : nat),
    serves pid s tok pages s_k ->
    Forall (fun p => stops c p = false) pages ->
    while_true (List.length pages + fuel) pid c acc tok (mkWorld s tr) =
    while_true fuel pid c (acc ++ map videoId (all_items pages))
      (next_token tok pages) (mkWorld s_k (tr ++ page_calls pid tok pages)).
Proof.
  induction pages as [|p rest IH]; intros tok s s_k acc tr fuel Hsrv Hgo.
  - inversion Hsrv; subst. cbn. now rewrite !app_nil_r.
  - inversion Hsrv as [|? ? ? s1 ? ? Hcall Hrest]; subst.
    inversion Hgo as [|? ? Hp Hgo']; subst.
    apply stops_false in Hp as [Hfresh Htok].
    cbn [List.length Nat.add].
    rewrite (while_true_step pid c _ _ _ _ _ _ _ Hcall). cbn zeta.
    rewrite for_items_completed by assumption. rewrite Htok.
    rewrite (IH _ _ _ _ _ _ Hrest Hgo').
    cbn [all_items flat_map next_token page_calls].
    fold (all_items rest).
    now rewrite map_app, <- !app_assoc.
Qed.

(** The last page ends the loop by having no token. *)
Lemma while_true_exhausts (pages : list Page) (last : Page)
    (s s_end : St) (tok : option string) (acc : list string)
    (tr : list Call) (fuel : nat) :
  serves pid s tok (pages ++ [last]) s_end ->
  Forall (not_older c) (all_items (pages ++ [last])) ->
  linked (pages ++ [last]) = true ->
  truthy (pg_token last) = false ->
  List.length pages < fuel ->
  while_true fuel pid c acc tok (mkWorld s tr) =
  Some (Returned (acc ++ map videoId (all_items (pages ++ [last]))),
        mkWorld s_end (tr ++ page_calls pid tok (pages ++ [last]))).
Proof.
  intros Hsrv Hfresh Hlink Hlast Hfuel.
  apply serves_app_inv in Hsrv as (s_mid & Hsrv1 & Hsrv2).
  inversion Hsrv2 as [|? ? ? s1 ? ? Hcall Hnil]; subst.
  inversion Hnil; subst.
  rewrite all_items_app in Hfresh |- *.
  apply Forall_app in Hfresh as [Hpages Hpage].
  cbn in Hpage. rewrite app_nil_r in Hpage.
  assert (Hgo : Forall (fun p => stops c p = false) pages).
  { apply linked_app_last in Hlink.
    rewrite Forall_forall in Hlink |- *. intros p Hp.
    unfold stops. rewrite (Hlink p Hp).
    rewrite has_older_fresh; [reflexivity |].
    rewrite Forall_forall in Hpages |- *. intros item Hitem.
    apply Hpages. unfold all_items. apply in_flat_map. now exists p. }
  replace fuel with (List.length pages + S (fuel - S (List.length pages)))
    by lia.
  rewrite (while_true_through pages _ _ _ _ _ _ Hsrv1 Hgo).
  rewrite (while_true_step pid c _ _ _ _ _ _ _ Hcall). cbn zeta.
  rewrite for_items_completed by assumption. rewrite Hlast.
  rewrite page_calls_app. cbn [page_calls all_items flat_map].
  now rewrite app_nil_r, map_app, <- !app_assoc.
Qed.

(** The calls of a finished run of the loop: page requests for [pid], the
    first with the token the loop was entered with, the others with a
    non-empty token. *)
Lemma while_true_calls (fuel : nat) :
  forall (tok : option string) (acc : list string) (s : St) (tr : list Call)
         (out : Outcome (list string)) (w' : World St),
    while_true fuel pid c acc tok (mkWorld s tr) = Some (out, w') ->
    exists toks : list (option string),
      calls w' = tr ++ map (PlaylistItemsList pid) (tok :: toks) /\
      Forall (fun t => truthy t = true) toks.
Proof.
  induction fuel as [|fuel IH]; intros tok acc s tr out w' Hrun.
  - discriminate.
  - simpl in Hrun. unfold bind, execute in Hrun. simpl in Hrun.
    destruct (playlistItems_list pid tok s) as [[res | e] s1].
    + destruct (pl_items res) as [items |]; simpl in Hrun.
      * destruct (for_items c items acc) as [ids | ids].
        -- inversion Hrun; subst. exists []. split; [reflexivity | constructor].
        -- destruct (truthy (nextPageToken res)) eqn:Htok.
           ++ apply IH in Hrun as (toks & Hcalls & Htoks).
              exists (nextPageToken res :: toks). split.
              ** rewrite Hcalls. now rewrite <- app_assoc.
              ** now constructor.
           ++ inversion Hrun; subst. exists [].
              split; [reflexivity | constructor].
      * inversion Hrun; subst. exists []. split; [reflexivity | constructor].
    + inversion Hrun; subst. exists []. split; [reflexivity | constructor].
Qed.

End Cutting.

(** ** Ordered items and the full scan *)

Lemma split_at_first_older (c : Z) (l : list PlaylistItem) :
  Forall (not_older c) l \/
  exists pre x post,
    l = pre ++ x :: post /\ Forall (not_older c) pre /\ (publishedAt x < c)%Z.
Proof.
  induction l as [|item l IH].
  - left. constructor.
  - destruct (Z.ltb_spec (publishedAt item) c) as [Hold | Hfresh].
    + right. exists [], item, l. repeat split; [constructor | assumption].
    + destruct IH as [Hall | (pre & x & post & -> & Hpre & Hx)].
      * left. now constructor.
      * right. exists (item :: pre), x, post.
        repeat split; [now constructor | assumption].
Qed.

Lemma reverse_chronological_tail (a : PlaylistItem) (l : list PlaylistItem) :
  reverse_chronological (a :: l) = true -> reverse_chronological l = true.
Proof.
  cbn. destruct l as [|b l']; [reflexivity |].
  intros H. now apply andb_true_iff in H.
Qed.

Lemma reverse_chronological_head (a : PlaylistItem) (l : list PlaylistItem) :
  reverse_chronological (a :: l) = true ->
  Forall (fun b => (publishedAt b <= publishedAt a)%Z) l.
Proof.
  revert a. induction l as [|b l IH]; intros a H; [constructor |].
  cbn [reverse_chronological] in H.
  apply andb_true_iff in H as [Hab Hrest]. apply Z.leb_le in Hab.
  constructor; [assumption |].
  specialize (IH b Hrest).
  rewrite Forall_forall in IH |- *. intros y Hy. specialize (IH y Hy). lia.
Qed.

Lemma reverse_chronological_app_r (l1 l2 : list PlaylistItem) :
  reverse_chronological (l1 ++ l2) = true -> reverse_chronological l2 = true.
Proof.
  induction l1 as [|a l1 IH]; intros H; [exact H |].
  apply IH. now apply reverse_chronological_tail in H.
Qed.

Lemma within_window_fresh (c : Z) (l : list PlaylistItem) :
  Forall (not_older c) l -> within_window c l = l.
Proof.
  unfold within_window.
  induction 1 as [|item l Hitem _ IH]; cbn; [reflexivity |].
  unfold not_older in Hitem.
  replace (publishedAt item <? c)%Z with false
    by (symmetry; now apply Z.ltb_ge).
  cbn. now rewrite IH.
Qed.

Lemma within_window_older (c : Z) (l : list PlaylistItem) :
  Forall (fun item => (publishedAt item < c)%Z) l -> within_window c l = [].
Proof.
  unfold within_window.
  induction 1 as [|item l Hitem _ IH]; cbn; [reflexivity |].
  apply Z.ltb_lt in Hitem. now rewrite Hitem.
Qed.

(** With the items newest first, filtering on the cutoff keeps the items
    before the first older one. *)
Lemma within_window_prefix (c : Z) (pre post : list PlaylistItem)
    (x : PlaylistItem) :
  reverse_chronological (pre ++ x :: post) = true ->
  Forall (not_older c) pre ->
  (publishedAt x < c)%Z ->
  within_window c (pre ++ x :: post) = pre.
Proof.
  intros Hsorted Hpre Hx.
  unfold within_window. rewrite filter_app.
  fold (within_window c pre). fold (within_window c (x :: post)).
  rewrite within_window_fresh by assumption.
  rewrite within_window_older; [now rewrite app_nil_r |].
  apply reverse_chronological_app_r in Hsorted.
  apply reverse_chronological_head in Hsorted.
  constructor; [assumption |].
  rewrite Forall_forall in Hsorted |- *.
  intros y Hy. specialize (Hsorted y Hy). cbn beta in Hsorted. lia.
Qed.

Lemma published_after_of_raises (now days : Z) (e : Exception) :
  published_after_of now days = Raised e -> e = OverflowError.
Proof.
  unfold published_after_of, timedelta, datetime_sub.
  destruct (Z.abs days >? 999999999)%Z; [intros H; now inversion H |].
  destruct ((datetime_min <=? now - days * us_per_day)
            && (now - days * us_per_day <=? datetime_max))%Z;
    [discriminate | intros H; now inversion H].
Qed.

Section DiscoveryExtras.

Context {St : Type} {youtube : Youtube St}.

(** When no item is older than the cutoff, every page is read, down to the
    one without a continuation token, and the identifiers of all the items
    are returned in the order of the pages. *)
Theorem all_recent_pages_are_returned (pid : string) (days now cutoff : Z)
    (pages : list Page) (last : Page) (s s_end : St) (tr : list Call)
    (fuel : nat) :
  published_after_of now days = Returned cutoff ->
  serves pid s None (pages ++ [last]) s_end ->
  linked (pages ++ [last]) = true ->
  truthy (pg_token last) = false ->
  Forall (not_older cutoff) (all_items (pages ++ [last])) ->
  List.length pages < fuel ->
  get_recent_video_ids fuel pid days now (mkWorld s tr) =
  Some (Returned (map videoId (all_items (pages ++ [last]))),
        mkWorld s_end (tr ++ page_calls pid None (pages ++ [last]))).
Proof.
  intros Hcut Hsrv Hlink Hlast Hfresh Hfuel.
  unfold get_recent_video_ids. rewrite Hcut.
  exact (while_true_exhausts pid cutoff pages last s s_end None [] tr fuel
           Hsrv Hfresh Hlink Hlast Hfuel).
Qed.

(** With the items newest first, the early exit loses nothing: the result
    is what reading every page and filtering on the cutoff would give. *)
Theorem early_exit_agrees_with_full_scan (pid : string) (days now cutoff : Z)
    (pages : list Page) (last : Page) (s s_end : St) (tr : list Call)
    (fuel : nat) :
  published_after_of now days = Returned cutoff ->
  serves pid s None (pages ++ [last]) s_end ->
  linked (pages ++ [last]) = true ->
  truthy (pg_token last) = false ->
  reverse_chronological (all_items (pages ++ [last])) = true ->
  List.length (pages ++ [last]) <= fuel ->
  exists w' : World St,
    get_recent_video_ids fuel pid days now (mkWorld s tr) =
    Some (Returned
            (map videoId (within_window cutoff (all_items (pages ++ [last])))),
          w').
Proof.
  intros Hcut Hsrv Hlink Hlast Hsorted Hfuel.
  rewrite length_app in Hfuel. cbn in Hfuel.
  destruct (split_at_first_older cutoff (all_items (pages ++ [last])))
    as [Hfresh | (pre & x & post & Hall & Hpre & Hx)].
  - rewrite within_window_fresh by assumption.
    eexists.
    unfold get_recent_video_ids. rewrite Hcut.
    apply (while_true_exhausts pid cutoff pages last s s_end None [] tr fuel
             Hsrv Hfresh Hlink Hlast). lia.
  - assert (Hscan : within_window cutoff (all_items (pages ++ [last])) = pre).
    { rewrite Hall in Hsorted |- *. now apply within_window_prefix. }
    rewrite Hscan.
    assert (Hnth : nth_error (all_items (pages ++ [last])) (List.length pre)
                   = Some x).
    { rewrite Hall, nth_error_app2, Nat.sub_diag by lia. reflexivity. }
    assert (Hfirst : firstn (List.length pre) (all_items (pages ++ [last]))
                     = pre).
    { rewrite Hall, firstn_app, Nat.sub_diag, firstn_all. cbn.
      now rewrite app_nil_r. }
    assert (Hidx : page_index (pages ++ [last]) (List.length pre) < fuel).
    { assert (Hlt : List.length pre
                    < List.length (all_items (pages ++ [last]))).
      { rewrite Hall, length_app. cbn. lia. }
      apply page_index_lt in Hlt. rewrite length_app in Hlt. cbn in Hlt.
      lia. }
    rewrite <- Hfirst in Hpre.
    destruct (get_recent_video_ids_early_exit pid days now cutoff
                (pages ++ [last]) (List.length pre) x s s_end tr fuel
                Hcut Hsrv Hlink Hnth Hx Hpre Hidx) as (s_k & _ & Hrun).
    rewrite Hfirst in Hrun. eexists. exact Hrun.
Qed.

End DiscoveryExtras.

Section DiscoveryFailures.

Context {St : Type} {youtube : Youtube St}.

(** A page request that fails, because the platform raises or because the
    response has no ["items"] key, makes [get_recent_video_ids] raise: the
    identifiers collected from the pages read before are not returned, and
    the failed request is the last call. *)
Theorem page_failure_discards_collected_ids (pid : string)
    (days now cutoff : Z) (pages : list Page) (s s_k s' : St)
    (r : Outcome PlaylistItemListResponse) (e : Exception) (tr : list Call)
    (fuel : nat) :
  published_after_of now days = Returned cutoff ->
  serves pid s None pages s_k ->
  Forall (fun p => stops cutoff p = false) pages ->
  playlistItems_list pid (next_token None pages) s_k = (r, s') ->
  gives_no_page r e ->
  List.length pages < fuel ->
  get_recent_video_ids fuel pid days now (mkWorld s tr) =
  Some (Raised e,
        mkWorld s'
          (tr ++ page_calls pid None pages
              ++ [PlaylistItemsList pid (next_token None pages)])).
Proof.
  intros Hcut Hsrv Hgo Hcall Hfail Hfuel.
  unfold get_recent_video_ids. rewrite Hcut.
  replace fuel with (List.length pages + S (fuel - S (List.length pages)))
    by lia.
  rewrite (while_true_through pid cutoff pages _ _ _ _ _ _ Hsrv Hgo).
  simpl. unfold bind, execute. simpl. rewrite Hcall.
  destruct Hfail as [-> | (res & -> & Hnone & ->)].
  - now rewrite <- app_assoc.
  - rewrite Hnone. unfold raise. now rewrite <- app_assoc.
Qed.

(** A window that [timedelta] or [datetime] cannot represent makes the
    function raise [OverflowError] before the first page is requested. *)
Theorem overflow_raises_before_any_call (pid : string) (days now : Z)
    (fuel : nat) (w : World St) :
  (999999999 < Z.abs days \/
   now - days * us_per_day < datetime_min \/
   datetime_max < now - days * us_per_day)%Z ->
  get_recent_video_ids fuel pid days now w = Some (Raised OverflowError, w).
Proof.
  intros Hout.
  unfold get_recent_video_ids, published_after_of, timedelta, datetime_sub.
  destruct (Z.gtb_spec (Z.abs days) 999999999) as [Hbig | Hsmall];
    [reflexivity |].
  destruct (Z.leb_spec datetime_min (now - days * us_per_day));
    destruct (Z.leb_spec (now - days * us_per_day) datetime_max);
    cbn; try reflexivity.
  lia.
Qed.

(** Whatever the outcome, the calls of [get_recent_video_ids] are page
    requests for the playlist it was given: none when the window overflows,
    otherwise a first one without token followed by requests that carry a
    non-empty token. *)
Theorem discovery_only_requests_pages (pid : string) (days now : Z)
    (fuel : nat) (s : St) (tr : list Call) (out : Outcome (list string))
    (w' : World St) :
  get_recent_video_ids fuel pid days now (mkWorld s tr) = Some (out, w') ->
  exists toks : list (option string),
    calls w' = tr ++ map (PlaylistItemsList pid) toks /\
    match toks with
    | [] => out = Raised OverflowError /\ platform w' = s
    | first :: others =>
        first = None /\ Forall (fun t => truthy t = true) others
    end.
Proof.
  unfold get_recent_video_ids.
  destruct (published_after_of now days) as [cutoff | e] eqn:Hcut.
  - intros Hrun.
    apply while_true_calls in Hrun as (toks & Hcalls & Htoks).
    exists (None :: toks). now split.
  - intros Hrun. inversion Hrun; subst.
    apply published_after_of_raises in Hcut as ->.
    exists []. cbn. rewrite app_nil_r. now repeat split.
Qed.

End DiscoveryFailures.

(** ** The batches *)

Lemma chunks_seq (video_ids : list string) :
  chunks video_ids =
  map (fun k => firstn 50 (skipn (k * 50) video_ids))
      (seq 0 ((List.length video_ids + 49) / 50)).
Proof.
  unfold chunks, range, slice. rewrite map_map.
  replace (List.length video_ids - 0 + 50 - 1)
    with (List.length video_ids + 49) by lia.
  apply map_ext. intros k.
  replace (0 + k * 50 + 50 - (0 + k * 50)) with 50 by lia.
  reflexivity.
Qed.

Lemma chunk_length (video_ids chunk : list string) :
  In chunk (chunks video_ids) ->
  1 <= List.length chunk <= 50.
Proof.
  rewrite chunks_seq. intros Hin.
  apply in_map_iff in Hin as (k & <- & Hk).
  apply in_seq in Hk.
  rewrite length_firstn, length_skipn.
  pose proof (Nat.div_mod_eq (List.length video_ids + 49) 50) as Hdiv.
  pose proof (Nat.mod_upper_bound (List.length video_ids + 49) 50) as Hmod.
  lia.
Qed.

Section AggregatorExtras.

Context {St : Type} {youtube : Youtube St}.

Lemma for_chunks_app (video_ids : list string) (starts1 starts2 : list nat) :
  forall (rows : list Row) (s s1 : St) (tr : list Call)
         (rs : list VideoListResponse),
    answers s (map (fun i => join_ids (slice video_ids i (i + 50))) starts1)
            rs s1 ->
    for_chunks video_ids (starts1 ++ starts2) rows (mkWorld s tr) =
    for_chunks video_ids starts2 (rows ++ returned_rows rs)
      (mkWorld s1
         (tr ++ map (fun i =>
                       VideosList (join_ids (slice video_ids i (i + 50))))
                    starts1)).
Proof.
  induction starts1 as [|i starts1 IH]; intros rows s s1 tr rs Hans;
    inversion Hans as [| ? ? res s0 ? rs' ? Hcall Hrest]; subst.
  - cbn. now rewrite !app_nil_r.
  - cbn [app for_chunks]. unfold bind, execute. cbn [platform calls].
    rewrite Hcall. rewrite (IH _ _ _ _ _ Hrest).
    cbn [map returned_rows flat_map].
    now rewrite <- !app_assoc.
Qed.

Lemma for_chunks_calls (video_ids : list string) (starts : list nat) :
  forall (rows : list Row) (s : St) (tr : list Call),
    exists (out : Outcome (list Row)) (w' : World St) (k : nat),
      for_chunks video_ids starts rows (mkWorld s tr) = Some (out, w') /\
      k <= List.length starts /\
      calls w' =
      tr ++ map (fun i => VideosList (join_ids (slice video_ids i (i + 50))))
                (firstn k starts) /\
      (forall df, out = Returned df -> k = List.length starts) /\
      (forall e, out = Raised e -> 1 <= k).
Proof.
  induction starts as [|i starts IH]; intros rows s tr.
  - exists (Returned rows), (mkWorld s tr), 0. cbn.
    rewrite app_nil_r.
    repeat split; try reflexivity; try lia. intros e He. discriminate.
  - cbn [for_chunks]. unfold bind, execute. cbn [platform calls].
    destruct (videos_list (join_ids (slice video_ids i (i + 50))) s)
      as [[res | e] s1].
    + destruct (IH (rows ++ map row_of (items_or_empty res)) s1
                  (tr ++ [VideosList (join_ids (slice video_ids i (i + 50)))]))
        as (out & w' & k & Hrun & Hk & Hcalls & Hret & Hraise).
      exists out, w', (S k). rewrite Hrun.
      split; [reflexivity |]. split; [cbn; lia |]. split.
      * rewrite Hcalls. cbn. now rewrite <- app_assoc.
      * split; [intros df Hdf; cbn; f_equal; now apply (Hret df) |].
        intros; lia.
    + exists (Raised e), (mkWorld s1
                (tr ++ [VideosList (join_ids (slice video_ids i (i + 50)))])), 1.
      split; [reflexivity |]. split; [cbn; lia |]. split; [reflexivity |].
      split; [intros df Hdf; discriminate | intros; lia].
Qed.

(** The batches cut the input into consecutive pieces of 1 to 50
    identifiers, as many as needed and no more: no request is empty and
    none exceeds the limit of the endpoint. *)
Theorem batches_respect_the_limit (video_ids : list string) :
  List.length (chunks video_ids) = (List.length video_ids + 49) / 50 /\
  Forall (fun chunk => 1 <= List.length chunk <= 50) (chunks video_ids) /\
  List.concat (chunks video_ids) = video_ids.
Proof.
  split; [| split].
  - rewrite chunks_seq, length_map, length_seq. reflexivity.
  - apply Forall_forall. intros chunk. apply chunk_length.
  - apply concat_chunks.
Qed.

(** Whatever the platform does, [get_video_stats] finishes, and the calls
    it has issued are the statistics requests for the first [k] batches, in
    order: all of them when it returns, at least one when it raises. *)
Theorem statistics_calls_are_a_prefix_of_the_batches
    (video_ids : list string) (w : World St) :
  exists (out : Outcome DataFrame) (w' : World St) (k : nat),
    get_video_stats video_ids w = Some (out, w') /\
    k <= List.length (chunks video_ids) /\
    calls w' =
    calls w ++ map VideosList (map join_ids (firstn k (chunks video_ids))) /\
    (forall df, out = Returned df -> k = List.length (chunks video_ids)) /\
    (forall e, out = Raised e -> 1 <= k).
Proof.
  destruct w as [s tr].
  rewrite get_video_stats_for_chunks.
  destruct (for_chunks_calls video_ids
              (range 0 (List.length video_ids) 50) [] s tr)
    as (out & w' & k & Hrun & Hk & Hcalls & Hret & Hraise).
  exists out, w', k. unfold chunks.
  rewrite length_map, firstn_map, !map_map.
  now repeat split.
Qed.

(** If a batch call raises, [get_video_stats] raises the same exception:
    the rows of the batches answered before are dropped and no later batch
    is requested. *)
Theorem batch_failure_stops_the_loop (video_ids chunk : list string)
    (k : nat) (s s_k s' : St) (tr : list Call)
    (rs : list VideoListResponse) (e : Exception) :
  answers s (map join_ids (firstn k (chunks video_ids))) rs s_k ->
  nth_error (chunks video_ids) k = Some chunk ->
  videos_list (join_ids chunk) s_k = (Raised e, s') ->
  get_video_stats video_ids (mkWorld s tr) =
  Some (Raised e,
        mkWorld s'
          (tr ++ map VideosList
                   (map join_ids (firstn (S k) (chunks video_ids))))).
Proof.
  unfold chunks. intros Hans Hnth Hcall.
  rewrite get_video_stats_for_chunks.
  set (starts := range 0 (List.length video_ids) 50) in *.
  rewrite nth_error_map in Hnth.
  destruct (nth_error starts k) as [i |] eqn:Hi; [| discriminate].
  cbn in Hnth. inversion Hnth; subst chunk; clear Hnth.
  apply nth_error_split in Hi as (l1 & l2 & Hstarts & Hlen).
  assert (Hk : firstn k starts = l1).
  { rewrite Hstarts, <- Hlen, firstn_app, Nat.sub_diag, firstn_all. cbn.
    now rewrite app_nil_r. }
  assert (HSk : firstn (S k) starts = l1 ++ [i]).
  { rewrite Hstarts, <- Hlen, firstn_app, firstn_all2 by lia.
    replace (S (List.length l1) - List.length l1) with 1 by lia.
    reflexivity. }
  rewrite firstn_map, Hk, map_map in Hans.
  rewrite firstn_map, HSk, !map_map.
  rewrite Hstarts.
  rewrite (for_chunks_app _ _ _ _ _ _ _ _ Hans).
  cbn [for_chunks]. unfold bind, execute. cbn [platform calls].
  rewrite Hcall. rewrite map_app. cbn. now rewrite <- app_assoc.
Qed.

End AggregatorExtras.

Lemma returned_ids_of_batches (cs : list (list string))
    (rs : list VideoListResponse) :
  Forall2 lists_batch cs rs -> returned_ids rs = List.concat cs.
Proof.
  unfold returned_ids, lists_batch.
  induction 1 as [|chunk res cs rs Hres _ IH]; cbn; [reflexivity |].
  now rewrite Hres, IH.
Qed.

Lemma row_of_shows_counts (item : VideoItem) :
  counts_not_negative item ->
  video_id (row_of item) = v_id item /\
  shown (viewCount item) (view_count (row_of item)) /\
  shown (likeCount item) (like_count (row_of item)) /\
  (0 <= view_count (row_of item))%Z /\
  (0 <= like_count (row_of item))%Z.
Proof.
  intros [Hviews Hlikes]. cbn. unfold get_or_zero, shown.
  destruct (viewCount item) as [v |]; destruct (likeCount item) as [l |];
    repeat split; try reflexivity; try lia;
    try (now apply Hviews); try (now apply Hlikes).
Qed.

Lemma returned_rows_items (rs : list VideoListResponse) :
  returned_rows rs = map row_of (returned_items rs).
Proof.
  unfold returned_rows, returned_items.
  induction rs as [|res rs IH]; cbn; [reflexivity |].
  now rewrite map_app, IH.
Qed.

Section TableExtras.

Context {St : Type} {youtube : Youtube St}.

(** When every response lists the videos of its batch, all of them and in
    the order of the request, the table has one row per input identifier,
    in the order of the input. *)
Theorem table_lists_input_when_all_videos_exist (video_ids : list string)
    (s s' : St) (tr : list Call) (rs : list VideoListResponse) :
  answers s (map join_ids (chunks video_ids)) rs s' ->
  Forall2 lists_batch (chunks video_ids) rs ->
  exists (df : DataFrame) (w' : World St),
    get_video_stats video_ids (mkWorld s tr) = Some (Returned df, w') /\
    map video_id df = video_ids /\
    List.length df = List.length video_ids.
Proof.
  intros Hans Hrs.
  exists (returned_rows rs). eexists.
  split; [exact (get_video_stats_answers _ _ _ tr _ Hans) |].
  assert (Hids : map video_id (returned_rows rs) = video_ids).
  { rewrite returned_rows_ids, (returned_ids_of_batches _ _ Hrs).
    apply concat_chunks. }
  split; [exact Hids |].
  rewrite <- (length_map video_id). now rewrite Hids.
Qed.

(** With pairwise distinct input identifiers and responses that return,
    each at most once, only identifiers of their own batch, the table has
    at most as many rows as there are input identifiers: videos that the
    platform leaves out are missing from the table, none is added. *)
Theorem row_count_at_most_input (video_ids : list string)
    (s s' : St) (tr : list Call) (rs : list VideoListResponse) :
  answers s (map join_ids (chunks video_ids)) rs s' ->
  NoDup video_ids ->
  Forall2 (fun chunk res =>
             NoDup (map v_id (items_or_empty res)) /\
             incl (map v_id (items_or_empty res)) chunk)
          (chunks video_ids) rs ->
  exists (df : DataFrame) (w' : World St),
    get_video_stats video_ids (mkWorld s tr) = Some (Returned df, w') /\
    List.length df <= List.length video_ids.
Proof.
  intros Hans Hnd Hrs.
  exists (returned_rows rs). eexists.
  split; [exact (get_video_stats_answers _ _ _ tr _ Hans) |].
  rewrite <- (length_map video_id), returned_rows_ids. unfold returned_ids.
  rewrite <- (concat_chunks video_ids) in Hnd.
  destruct (NoDup_responses _ _ _ Hrs Hnd) as [Hnd' Hincl].
  rewrite concat_chunks in Hincl.
  now apply NoDup_incl_length.
Qed.

(** The table has one row per returned item, and each row shows the counts
    of its item: a count that is present as it is, a count that is absent
    (hidden likes) as 0. So when the counts that are present are not
    negative, no row has a negative count. *)
Theorem counts_stay_non_negative (video_ids : list string)
    (s s' : St) (tr : list Call) (rs : list VideoListResponse) :
  answers s (map join_ids (chunks video_ids)) rs s' ->
  Forall counts_not_negative (returned_items rs) ->
  exists (df : DataFrame) (w' : World St),
    get_video_stats video_ids (mkWorld s tr) = Some (Returned df, w') /\
    Forall2 (fun item row =>
               video_id row = v_id item /\
               shown (viewCount item) (view_count row) /\
               shown (likeCount item) (like_count row) /\
               (0 <= view_count row)%Z /\ (0 <= like_count row)%Z)
            (returned_items rs) df.
Proof.
  intros Hans Hrs.
  exists (returned_rows rs). eexists.
  split; [exact (get_video_stats_answers _ _ _ tr _ Hans) |].
  rewrite returned_rows_items. clear Hans.
  induction Hrs as [|item items Hitem _ IH]; cbn; constructor.
  - now apply row_of_shows_counts.
  - exact IH.
Qed.

End TableExtras.

(** ** The fetch sequence *)

Section FlowExtras.

Context {St : Type} {youtube : Youtube St}.

Lemma get_uploads_playlist_id_calls (channel_id : string) (s : St)
    (tr : list Call) (out : Outcome string) (w1 : World St) :
  get_uploads_playlist_id channel_id (mkWorld s tr) = Some (out, w1) ->
  calls w1 = tr ++ [ChannelsList channel_id].
Proof.
  unfold get_uploads_playlist_id, bind, execute. cbn [platform calls].
  destruct (channels_list channel_id s) as [[res | e] s1].
  - destruct (ch_items res) as [[|item rest] |];
      intros H; inversion H; reflexivity.
  - intros H; inversion H; reflexivity.
Qed.

Lemma get_video_stats_calls (video_ids : list string) (w : World St)
    (out : Outcome DataFrame) (w' : World St) :
  get_video_stats video_ids w = Some (out, w') ->
  exists reqs : list string, calls w' = calls w ++ map VideosList reqs.
Proof.
  destruct w as [s tr]. rewrite get_video_stats_for_chunks.
  destruct (for_chunks_calls video_ids
              (range 0 (List.length video_ids) 50) [] s tr)
    as (out0 & w0 & k & Hrun & _ & Hcalls & _).
  rewrite Hrun. intros H. inversion H; subst.
  eexists. rewrite Hcalls. now rewrite <- map_map.
Qed.

Lemma get_recent_video_ids_calls (pid : string) (days now : Z) (fuel : nat)
    (w : World St) (out : Outcome (list string)) (w' : World St) :
  get_recent_video_ids fuel pid days now w = Some (out, w') ->
  exists toks : list (option string),
    calls w' = calls w ++ map (PlaylistItemsList pid) toks.
Proof.
  destruct w as [s tr]. unfold get_recent_video_ids.
  destruct (published_after_of now days) as [cutoff | e].
  - intros Hrun.
    apply while_true_calls in Hrun as (toks & Hcalls & _).
    now exists (None :: toks).
  - intros Hrun. inversion Hrun; subst. exists []. cbn.
    now rewrite app_nil_r.
Qed.

(** [get_uploads_playlist_id] always finishes after exactly one call, the
    lookup of the channel, and it returns an identifier only when that
    lookup answered with at least one item: the uploads playlist of the
    first one. *)
Theorem lookup_issues_exactly_one_call (channel_id : string) (w : World St) :
  exists (out : Outcome string) (s1 : St),
    get_uploads_playlist_id channel_id w =
    Some (out, mkWorld s1 (calls w ++ [ChannelsList channel_id])) /\
    forall uploads_id : string,
      out = Returned uploads_id ->
      exists (res : ChannelListResponse) (item : ChannelItem)
             (others : list ChannelItem),
        channels_list channel_id (platform w) = (Returned res, s1) /\
        ch_items res = Some (item :: others) /\
        uploads_id = uploads item.
Proof.
  unfold get_uploads_playlist_id, bind, execute.
  destruct (channels_list channel_id (platform w)) as [[res | e] s1] eqn:Hcall.
  - destruct (ch_items res) as [[|item others] |] eqn:Hitems.
    + eexists; exists s1. split; [reflexivity | intros u Hu; discriminate].
    + eexists; exists s1. split; [reflexivity |].
      intros u Hu. inversion Hu; subst.
      now exists res, item, others.
    + eexists; exists s1. split; [reflexivity | intros u Hu; discriminate].
  - eexists; exists s1. split; [reflexivity | intros u Hu; discriminate].
Qed.

(** An exception raised by any of the three stages ends the query on the
    message of that exception, in the world where it was raised: the later
    stages issue no call and nothing is drawn. *)
Theorem analyze_shows_first_failure (fuel : nat) (channel_id : string)
    (days now : Z) (w w1 : World St) (e : Exception) :
  get_uploads_playlist_id channel_id w = Some (Raised e, w1) \/
  (exists uploads_id w0,
      get_uploads_playlist_id channel_id w = Some (Returned uploads_id, w0) /\
      (get_recent_video_ids fuel uploads_id days now w0 = Some (Raised e, w1) \/
       exists video_ids w0',
         get_recent_video_ids fuel uploads_id days now w0 =
         Some (Returned video_ids, w0') /\
         get_video_stats video_ids w0' = Some (Raised e, w1))) ->
  analyze fuel channel_id days now w = Some (ErrorMessage e, w1).
Proof.
  unfold analyze, fetch, bind.
  intros [H1 | (uploads_id & w0 & H1 & [H2 | (video_ids & w0' & H2 & H3)])];
    rewrite H1; try rewrite H2; try rewrite H3; reflexivity.
Qed.

(** The dashboard is drawn only when the three stages have all returned,
    from a table with at least one row, obtained for at least one recent
    video. *)
Theorem dashboard_needs_all_three_stages (fuel : nat) (channel_id : string)
    (days now : Z) (w w' : World St) (df : DataFrame) :
  analyze fuel channel_id days now w = Some (Dashboard df, w') ->
  df <> [] /\
  exists (uploads_id : string) (video_ids : list string) (w1 w2 : World St),
    get_uploads_playlist_id channel_id w = Some (Returned uploads_id, w1) /\
    get_recent_video_ids fuel uploads_id days now w1 =
    Some (Returned video_ids, w2) /\
    video_ids <> [] /\
    get_video_stats video_ids w2 = Some (Returned df, w').
Proof.
  unfold analyze, fetch, bind.
  destruct (get_uploads_playlist_id channel_id w)
    as [[[uploads_id | e1] w1] |] eqn:Hup; try discriminate.
  destruct (get_recent_video_ids fuel uploads_id days now w1)
    as [[[video_ids | e2] w2] |] eqn:Hids; try discriminate.
  destruct (get_video_stats video_ids w2)
    as [[[df0 | e3] w3] |] eqn:Hstats; try discriminate.
  destruct df0 as [|row rows]; cbn; intros H; inversion H; subst.
  split; [discriminate |].
  exists uploads_id, video_ids, w1, w2.
  split; [reflexivity |]. split; [exact Hids |]. split; [| exact Hstats].
  intros ->. cbn in Hstats. discriminate.
Qed.

(** When no video falls in the window, the query ends on the warning right
    after the discovery: the statistics endpoint is not called. *)
Theorem empty_window_skips_statistics (fuel : nat) (channel_id : string)
    (uploads_id : string) (days now : Z) (w w1 w2 : World St) :
  get_uploads_playlist_id channel_id w = Some (Returned uploads_id, w1) ->
  get_recent_video_ids fuel uploads_id days now w1 = Some (Returned [], w2) ->
  analyze fuel channel_id days now w = Some (NoVideosWarning, w2).
Proof.
  intros H1 H2. unfold analyze, fetch, bind. rewrite H1, H2. reflexivity.
Qed.

(** The calls of a finished query come in the order of the stages: the
    channel lookup, then page requests for one playlist, then statistics
    requests. *)
Theorem fetch_calls_in_stage_order (fuel : nat) (channel_id : string)
    (days now : Z) (s : St) (tr : list Call) (screen : Screen)
    (w' : World St) :
  analyze fuel channel_id days now (mkWorld s tr) = Some (screen, w') ->
  exists (uploads_id : string) (toks : list (option string))
         (reqs : list string),
    calls w' =
    tr ++ ChannelsList channel_id
       :: map (PlaylistItemsList uploads_id) toks ++ map VideosList reqs.
Proof.
  unfold analyze, fetch, bind.
  destruct (get_uploads_playlist_id channel_id (mkWorld s tr))
    as [[[uploads_id | e1] w1] |] eqn:H1; try discriminate.
  - apply get_uploads_playlist_id_calls in H1.
    destruct (get_recent_video_ids fuel uploads_id days now w1)
      as [[[video_ids | e2] w2] |] eqn:H2; try discriminate.
    + apply get_recent_video_ids_calls in H2 as (toks & H2).
      destruct (get_video_stats video_ids w2)
        as [[[df | e3] w3] |] eqn:H3; try discriminate.
      * apply get_video_stats_calls in H3 as (reqs & H3).
        intros H.
        assert (w' = w3) as -> by (destruct (empty df); now inversion H).
        exists uploads_id, toks, reqs.
        rewrite H3, H2, H1. now rewrite <- !app_assoc.
      * apply get_video_stats_calls in H3 as (reqs & H3).
        intros H. inversion H; subst.
        exists uploads_id, toks, reqs.
        rewrite H3, H2, H1. now rewrite <- !app_assoc.
    + apply get_recent_video_ids_calls in H2 as (toks & H2).
      intros H. inversion H; subst.
      exists uploads_id, toks, [].
      rewrite H2, H1. cbn. now rewrite app_nil_r, <- !app_assoc.
  - apply get_uploads_playlist_id_calls in H1.
    intros H. inversion H; subst.
    exists "", [], []. now rewrite H1.
Qed.

End FlowExtras.

(** ** Presentation code *)

Lemma string_length_append (a b : string) :
  String.length (a ++ b)%string = String.length a + String.length b.
Proof.
  induction a as [|ch a IH]; cbn; [reflexivity | now rewrite IH].
Qed.

Lemma string_append_cancel_r (suffix : string) :
  forall x y : string,
    (x ++ suffix)%string = (y ++ suffix)%string -> x = y.
Proof.
  induction x as [|ch x IH]; intros y H.
  - destruct y as [|ch' y]; [reflexivity |].
    apply (f_equal String.length) in H.
    cbn in H. rewrite string_length_append in H. lia.
  - destruct y as [|ch' y].
    + apply (f_equal String.length) in H.
      cbn in H. rewrite string_length_append in H. lia.
    + cbn in H. inversion H; subst. f_equal. now apply IH.
Qed.

(** The thumbnail address and the watch address each determine the video:
    two rows get the same address only if they have the same identifier. *)
Theorem urls_identify_the_video (x y : string) :
  thumbnail x = thumbnail y \/ video_url x = video_url y ->
  x = y.
Proof.
  unfold thumbnail, video_url. intros [H | H].
  - cbn in H. inversion H as [H']. now apply string_append_cancel_r in H'.
  - cbn in H. now inversion H.
Qed.

Lemma In_firstn {A : Type} (n : nat) (l : list A) (a : A) :
  In a (firstn n l) -> In a l.
Proof.
  intros H. rewrite <- (firstn_skipn n l). apply in_or_app. now left.
Qed.

Lemma StronglySorted_app_inv {A : Type} (R : A -> A -> Prop) (l1 l2 : list A) :
  StronglySorted R (l1 ++ l2) ->
  StronglySorted R l1 /\
  forall a b, In a l1 -> In b l2 -> R a b.
Proof.
  induction l1 as [|x l1 IH]; cbn; intros H.
  - split; [constructor | intros a b []].
  - apply StronglySorted_inv in H as [Hrest Hx].
    destruct (IH Hrest) as [Hl1 Hcross].
    split.
    + constructor; [assumption |].
      rewrite Forall_forall in Hx |- *. intros b Hb. apply Hx.
      apply in_or_app. now left.
    + intros a b [<- | Ha] Hb.
      * rewrite Forall_forall in Hx. apply Hx. apply in_or_app. now right.
      * now apply Hcross.
Qed.

(** The three cards show rows of the table, most viewed first, as many as
    there are rows up to three, and every row of the table is either on a
    card or has no more views than each card. *)
Theorem top3_are_the_most_viewed (sort_values : DataFrame -> DataFrame)
    (df : DataFrame) :
  sorts_by_views sort_values ->
  List.length (top3_df sort_values df) = Nat.min 3 (List.length df) /\
  (forall row, In row (top3_df sort_values df) -> In row df) /\
  StronglySorted more_views_first (top3_df sort_values df) /\
  (forall row, In row df ->
     In row (top3_df sort_values df) \/
     forall card, In card (top3_df sort_values df) ->
                  (view_count row <= view_count card)%Z).
Proof.
  intros Hsort. destruct (Hsort df) as [Hperm Hsorted].
  unfold top3_df, head.
  rewrite <- (firstn_skipn 3 (sort_values df)) in Hsorted.
  apply StronglySorted_app_inv in Hsorted as [Htop Hcross].
  refine (conj _ (conj _ (conj Htop _))).
  - rewrite length_firstn. now rewrite (Permutation_length Hperm).
  - intros row Hrow. apply (Permutation_in _ Hperm). now apply In_firstn in Hrow.
  - intros row Hrow.
    apply (Permutation_in _ (Permutation_sym Hperm)) in Hrow.
    rewrite <- (firstn_skipn 3 (sort_values df)) in Hrow.
    apply in_app_or in Hrow as [Htop3 | Hrest]; [now left | right].
    intros card Hcard. exact (Hcross card row Hcard Hrest).
Qed.

Lemma insert_by_views_perm (r : Row) (df : DataFrame) :
  Permutation (insert_by_views r df) (r :: df).
Proof.
  induction df as [|x rest IH]; cbn; [apply Permutation_refl |].
  destruct (view_count x <? view_count r)%Z; [apply Permutation_refl |].
  apply perm_trans with (x :: r :: rest);
    [now apply perm_skip | apply perm_swap].
Qed.

Lemma insert_by_views_sorted (r : Row) (df : DataFrame) :
  StronglySorted more_views_first df ->
  StronglySorted more_views_first (insert_by_views r df).
Proof.
  induction 1 as [|x rest Hrest IH Hx]; cbn.
  - constructor; constructor.
  - destruct (Z.ltb_spec (view_count x) (view_count r)) as [Hlt | Hge].
    + constructor; [now constructor |].
      constructor; [unfold more_views_first; lia |].
      rewrite Forall_forall in Hx |- *. intros y Hy.
      specialize (Hx y Hy). unfold more_views_first in *. lia.
    + constructor; [assumption |].
      rewrite Forall_forall in Hx |- *. intros y Hy.
      apply (Permutation_in _ (insert_by_views_perm r rest)) in Hy.
      destruct Hy as [<- | Hy]; [exact Hge | now apply Hx].
Qed.

Lemma insertion_sort_sorts_by_views : sorts_by_views insertion_sort_by_views.
Proof.
  intros df. induction df as [|r rest [Hperm Hsorted]]; cbn.
  - split; constructor.
  - split.
    + apply perm_trans with (r :: insertion_sort_by_views rest);
        [apply insert_by_views_perm | now apply perm_skip].
    + now apply insert_by_views_sorted.
Qed.

(** * More concrete runs *)

Lemma all_recent_pages_are_returned_witness :
  get_recent_video_ids 3 "UU" 30 now0 (mkWorld three_pages []) =
  Some (Returned (map videoId (all_items ([page1; page2] ++ [page3]))),
        mkWorld (mkScript [] [] [])
          ([] ++ page_calls "UU" None ([page1; page2] ++ [page3]))).
Proof.
  apply (all_recent_pages_are_returned "UU" 30 now0 1697408000000000
           [page1; page2] page3 three_pages (mkScript [] [] []) [] 3).
  - reflexivity.
  - exact three_pages_served.
  - reflexivity.
  - reflexivity.
  - repeat constructor; vm_compute; discriminate.
  - cbn. lia.
Defined.

Lemma early_exit_agrees_with_full_scan_witness :
  exists w' : World Script,
    get_recent_video_ids 3 "UU" 7 now0 (mkWorld three_pages []) =
    Some (Returned
            (map videoId
               (within_window cutoff0 (all_items ([page1; page2] ++ [page3])))),
          w').
Proof.
  apply (early_exit_agrees_with_full_scan "UU" 7 now0 cutoff0
           [page1; page2] page3 three_pages (mkScript [] [] []) [] 3).
  - reflexivity.
  - exact three_pages_served.
  - reflexivity.
  - reflexivity.
  - reflexivity.
  - cbn. lia.
Defined.

Lemma page_failure_discards_collected_ids_witness :
  get_recent_video_ids 2 "UU" 7 now0
    (mkWorld (mkScript [] (pl_script second_page_refused) []) []) =
  Some (Raised quota_exceeded,
        mkWorld (mkScript [] [] [])
          ([] ++ page_calls "UU" None [page1]
              ++ [PlaylistItemsList "UU" (next_token None [page1])])).
Proof.
  apply (page_failure_discards_collected_ids "UU" 7 now0 cutoff0 [page1]
           (mkScript [] (pl_script second_page_refused) [])
           (mkScript [] [Raised quota_exceeded] [])
           (mkScript [] [] []) (Raised quota_exceeded) quota_exceeded [] 2).
  - reflexivity.
  - econstructor; [reflexivity | constructor].
  - constructor; [reflexivity | constructor].
  - reflexivity.
  - left. reflexivity.
  - cbn. lia.
Defined.

Lemma overflow_raises_before_any_call_witness :
  get_recent_video_ids 5 "UU" 1000000000 now0 (mkWorld three_pages []) =
  Some (Raised OverflowError, mkWorld three_pages []).
Proof.
  apply (overflow_raises_before_any_call "UU" 1000000000 now0 5
           (mkWorld three_pages [])).
  left. cbn. lia.
Defined.

Lemma discovery_only_requests_pages_witness :
  exists toks : list (option string),
    [PlaylistItemsList "UU" None; PlaylistItemsList "UU" (Some "CAIQAA")] =
    [] ++ map (PlaylistItemsList "UU") toks /\
    match toks with
    | [] =>
        Returned ["v1"; "v2"; "v3"] = Raised OverflowError /\
        mkScript [] [Returned (page_response page3)] [] = three_pages
    | first :: others =>
        first = None /\ Forall (fun t => truthy t = true) others
    end.
Proof.
  apply (discovery_only_requests_pages "UU" 7 now0 2 three_pages []
           (Returned ["v1"; "v2"; "v3"])
           (mkWorld (mkScript [] [Returned (page_response page3)] [])
              [PlaylistItemsList "UU" None;
               PlaylistItemsList "UU" (Some "CAIQAA")])).
  reflexivity.
Defined.

Lemma batch_failure_stops_the_loop_witness :
  get_video_stats (repeat "a" 51) (mkWorld second_batch_fails []) =
  Some (Raised (HttpError "backendError"),
        mkWorld (mkScript [] [] [])
          ([] ++ map VideosList
                   (map join_ids (firstn 2 (chunks (repeat "a" 51)))))).
Proof.
  apply (batch_failure_stops_the_loop (repeat "a" 51) ["a"] 1
           second_batch_fails
           (mkScript [] [] [Raised (HttpError "backendError")])
           (mkScript [] [] []) []
           [ {| v_items := Some [video "a" 1000 50] |} ]
           (HttpError "backendError")).
  - econstructor; [reflexivity | constructor].
  - reflexivity.
  - reflexivity.
Defined.

Lemma table_lists_input_when_all_videos_exist_witness :
  exists (df : DataFrame) (w' : World Script),
    get_video_stats ["v1"; "v2"; "v3"]
      (mkWorld (mkScript [] [] [Returned three_videos]) []) =
    Some (Returned df, w') /\
    map video_id df = ["v1"; "v2"; "v3"] /\
    List.length df = List.length ["v1"; "v2"; "v3"].
Proof.
  apply (table_lists_input_when_all_videos_exist ["v1"; "v2"; "v3"]
           (mkScript [] [] [Returned three_videos]) (mkScript [] [] []) []
           [three_videos]).
  - econstructor; [reflexivity | constructor].
  - constructor; [reflexivity | constructor].
Defined.

Lemma row_count_at_most_input_witness :
  exists (df : DataFrame) (w' : World Script),
    get_video_stats ["a"; "b"; "c"] (mkWorld b_removed []) =
    Some (Returned df, w') /\
    List.length df <= List.length ["a"; "b"; "c"].
Proof.
  apply (row_count_at_most_input ["a"; "b"; "c"] b_removed
           (mkScript [] [] []) []
           [ {| v_items := Some [video "a" 1000 50; video "c" 10 0] |} ]).
  - econstructor; [reflexivity | constructor].
  - repeat constructor; cbn; intuition discriminate.
  - constructor; [| constructor]. split.
    + repeat constructor; cbn; intuition discriminate.
    + intros x Hx. cbn in Hx |- *. intuition.
Defined.

Lemma rows_unique_for_distinct_input_witness :
  exists (df : DataFrame) (w' : World Script),
    get_video_stats ["a"; "b"; "c"] (mkWorld b_removed []) =
    Some (Returned df, w') /\
    NoDup (map video_id df) /\
    incl (map video_id df) ["a"; "b"; "c"].
Proof.
  apply (rows_unique_for_distinct_input ["a"; "b"; "c"] b_removed
           (mkScript [] [] []) []
           [ {| v_items := Some [video "a" 1000 50; video "c" 10 0] |} ]).
  - econstructor; [reflexivity | constructor].
  - repeat constructor; cbn; intuition discriminate.
  - constructor; [| constructor]. split.
    + repeat constructor; cbn; intuition discriminate.
    + intros x Hx. cbn in Hx |- *. intuition.
Defined.

Lemma counts_stay_non_negative_witness :
  exists (df : DataFrame) (w' : World Script),
    get_video_stats ["v1"; "h"; "n"]
      (mkWorld
         (mkScript [] []
            [Returned {| v_items := Some [video "v1" 1000 50; hidden_likes;
                                          no_statistics] |}])
         []) =
    Some (Returned df, w') /\
    Forall2 (fun item row =>
               video_id row = v_id item /\
               shown (viewCount item) (view_count row) /\
               shown (likeCount item) (like_count row) /\
               (0 <= view_count row)%Z /\ (0 <= like_count row)%Z)
            (returned_items
               [ {| v_items := Some [video "v1" 1000 50; hidden_likes;
                                     no_statistics] |} ])
            df.
Proof.
  apply (counts_stay_non_negative ["v1"; "h"; "n"]
           (mkScript [] []
              [Returned {| v_items := Some [video "v1" 1000 50; hidden_likes;
                                            no_statistics] |}])
           (mkScript [] [] []) []
           [ {| v_items := Some [video "v1" 1000 50; hidden_likes;
                                 no_statistics] |} ]).
  - econstructor; [reflexivity | constructor].
  - repeat constructor; intros n H; inversion H; lia.
Defined.

(** The same table written out: the hidden like count and the missing
    statistics are shown as 0. *)
Lemma absent_counts_run :
    get_video_stats ["v1"; "h"; "n"]
      (mkWorld
         (mkScript [] []
            [Returned {| v_items := Some [video "v1" 1000 50; hidden_likes;
                                          no_statistics] |}])
         []) =
    Some (Returned
            [ {| video_id := "v1"; title := "v1"; view_count := 1000;
                 like_count := 50; published_at := "2023-11-14T00:00:00Z" |};
              {| video_id := "h"; title := "h"; view_count := 1234;
                 like_count := 0; published_at := "2023-11-14T00:00:00Z" |};
              {| video_id := "n"; title := "n"; view_count := 0;
                 like_count := 0; published_at := "2023-11-14T00:00:00Z" |} ],
          mkWorld (mkScript [] [] []) [VideosList "v1,h,n"]).
Proof. reflexivity. Qed.

Lemma analyze_shows_first_failure_witness :
  analyze 2 "UC" 7 now0 (mkWorld second_page_refused []) =
  Some (ErrorMessage quota_exceeded,
        mkWorld (mkScript [] [] [])
          [ChannelsList "UC"; PlaylistItemsList "UU" None;
           PlaylistItemsList "UU" (Some "CAIQAA")]).
Proof.
  apply (analyze_shows_first_failure 2 "UC" 7 now0
           (mkWorld second_page_refused [])
           (mkWorld (mkScript [] [] [])
              [ChannelsList "UC"; PlaylistItemsList "UU" None;
               PlaylistItemsList "UU" (Some "CAIQAA")])
           quota_exceeded).
  right.
  exists "UU",
    (mkWorld (mkScript [] (pl_script second_page_refused) [])
       [ChannelsList "UC"]).
  split; [reflexivity |]. left. reflexivity.
Defined.

Lemma dashboard_needs_all_three_stages_witness :
  three_rows <> [] /\
  exists (uploads_id : string) (video_ids : list string)
         (w1 w2 : World Script),
    get_uploads_playlist_id "UC" (mkWorld all_answered []) =
    Some (Returned uploads_id, w1) /\
    get_recent_video_ids 2 uploads_id 7 now0 w1 =
    Some (Returned video_ids, w2) /\
    video_ids <> [] /\
    get_video_stats video_ids w2 =
    Some (Returned three_rows,
          mkWorld (mkScript [] [Returned (page_response page3)] [])
            [ChannelsList "UC"; PlaylistItemsList "UU" None;
             PlaylistItemsList "UU" (Some "CAIQAA"); VideosList "v1,v2,v3"]).
Proof.
  apply (dashboard_needs_all_three_stages 2 "UC" 7 now0
           (mkWorld all_answered [])).
  reflexivity.
Defined.

Lemma empty_window_skips_statistics_witness :
  analyze 1 "UC" 7 now0 (mkWorld nothing_recent []) =
  Some (NoVideosWarning,
        mkWorld (mkScript [] [] [])
          [ChannelsList "UC"; PlaylistItemsList "UU" None]).
Proof.
  apply (empty_window_skips_statistics 1 "UC" "UU" 7 now0
           (mkWorld nothing_recent [])
           (mkWorld (mkScript [] [Returned (page_response page3)] [])
              [ChannelsList "UC"])).
  - reflexivity.
  - reflexivity.
Defined.

Lemma fetch_calls_in_stage_order_witness :
  exists (uploads_id : string) (toks : list (option string))
         (reqs : list string),
    [ChannelsList "UC"; PlaylistItemsList "UU" None;
     PlaylistItemsList "UU" (Some "CAIQAA"); VideosList "v1,v2,v3"] =
    [] ++ ChannelsList "UC"
       :: map (PlaylistItemsList uploads_id) toks ++ map VideosList reqs.
Proof.
  apply (fetch_calls_in_stage_order 2 "UC" 7 now0 all_answered []
           (Dashboard three_rows)
           (mkWorld (mkScript [] [Returned (page_response page3)] [])
              [ChannelsList "UC"; PlaylistItemsList "UU" None;
               PlaylistItemsList "UU" (Some "CAIQAA");
               VideosList "v1,v2,v3"])).
  reflexivity.
Defined.

Lemma urls_identify_the_video_witness : "dQw4w9WgXcQ" = "dQw4w9WgXcQ".
Proof.
  apply (urls_identify_the_video "dQw4w9WgXcQ" "dQw4w9WgXcQ").
  left. reflexivity.
Defined.

Lemma top3_are_the_most_viewed_witness :
  List.length (top3_df insertion_sort_by_views three_rows) =
  Nat.min 3 (List.length three_rows) /\
  (forall row,
      In row (top3_df insertion_sort_by_views three_rows) ->
      In row three_rows) /\
  StronglySorted more_views_first
    (top3_df insertion_sort_by_views three_rows) /\
  (forall row, In row three_rows ->
     In row (top3_df insertion_sort_by_views three_rows) \/
     forall card, In card (top3_df insertion_sort_by_views three_rows) ->
                  (view_count row <= view_count card)%Z).
Proof.
  apply (top3_are_the_most_viewed insertion_sort_by_views three_rows).
  exact insertion_sort_sorts_by_views.
Defined.

(** The three most viewed of three rows with 1000, 500 and 10000 views, in
    the order of the cards. *)
Lemma top3_of_three_rows :
  map view_count (top3_df insertion_sort_by_views three_rows) =
  [10000; 1000; 500]%Z.
Proof. reflexivity. Qed.

Section NoPageLimit.

Context {St : Type} {youtube : Youtube St}.

(** The loop has no limit of its own on the number of pages: on a platform
    that answers every page request with a page that has a continuation
    token and no item older than the cutoff, [get_recent_video_ids] does not
    finish, whatever the fuel. *)
Theorem endless_playlist_is_read_forever (pid : string) (days now cutoff : Z) :
  published_after_of now days = Returned cutoff ->
  (forall (tok : option string) (s : St),
      exists (p : Page) (s1 : St),
        playlistItems_list pid tok s = (Returned (page_response p), s1) /\
        stops cutoff p = false) ->
  forall (fuel : nat) (w : World St),
    get_recent_video_ids fuel pid days now w = None.
Proof.
  intros Hcut Hmore fuel w.
  unfold get_recent_video_ids. rewrite Hcut.
  generalize (@nil string) as acc. generalize (@None string) as tok.
  revert w.
  induction fuel as [|fuel IH]; intros [s tr] tok acc; [reflexivity |].
  destruct (Hmore tok s) as (p & s1 & Hcall & Hgo).
  apply stops_false in Hgo as [Hfresh Htok].
  rewrite (while_true_step pid cutoff _ _ _ _ _ _ _ Hcall). cbn zeta.
  rewrite for_items_completed by assumption. rewrite Htok.
  apply IH.
Qed.

End NoPageLimit.

Lemma endless_playlist_is_read_forever_witness :
  get_recent_video_ids (youtube := endless now0) 1000 "UU" 7 now0
    (mkWorld tt []) = None.
Proof.
  refine (endless_playlist_is_read_forever (youtube := endless now0)
            "UU" 7 now0 cutoff0 _ _ 1000 (mkWorld tt [])).
  - reflexivity.
  - intros tok s.
    exists {| pg_items := [ {| publishedAt := now0; videoId := "v" |} ];
              pg_token := Some "more" |}, s.
    split; reflexivity.
Defined.
